(** * Villa_Dashboard: loading, filtering and aggregation of the sales table

    A shallow embedding of [main.py], the Streamlit dashboard script.  The
    script is a straight line of pandas calls; what is embedded here is the
    data path of that script:

    - [load_data] (the [@st.cache_data] function), statement by statement;
    - the sidebar bounds [min_price] / [max_price];
    - [filter_conditions] and [filtered_data];
    - the defensive re-coercion of the [m²] column of [filtered_data];
    - the tables computed in the three tabs ([monthly_sales], the price per
      m² statistics, [project_sales], [monthly_price_m2],
      [project_locations]);
    - the script as a whole as a state transformer on a store of Python
      objects, to speak about which objects it writes.

    Conventions of the embedding.

    - A float64 value is a rational ([Q]) or NaN; a float column cell is
      [option Q] with [None] for NaN.  Arithmetic is exact: rounding is
      outside the model, and an infinity arises only where the script
      divides ([float]).
    - A DataFrame is the list of its rows in index order; every row carries
      its index label ([index]), as [pd.read_csv] numbers them.
    - A raised Python exception is the [Raise] outcome of the [result] monad.
    - [float()] on a string, [pd.to_numeric] on a string and the parsing of
      dates that are not of the form [D/M/YYYY] belong to Python and pandas;
      they are parameters of the development. *)

From Stdlib Require Import Ascii String QArith Qround.
From Stdlib Require Import OrdersEx ZifyNat Sorted Permutation.
From stdpp Require Import base list gmap strings.

Open Scope Z_scope.
Open Scope string_scope.
Open Scope list_scope.

(** ** Outcomes of statements that may raise *)

Inductive exn : Type :=
| ValueError
| AttributeError
| TypeError.

Inductive result (A : Type) : Type :=
| Return (a : A)
| Raise (e : exn).

Arguments Return {A} a.
Arguments Raise {A} e.

Definition rbind {A B : Type} (m : result A) (k : A -> result B) : result B :=
  match m with
  | Return a => k a
  | Raise e => Raise e
  end.

Notation "'do' x <- m ; k" := (rbind m (fun x => k))
  (at level 10, x name, m at level 100, k at level 200).

(** A column-wise conversion: the cells are converted in order and the first
    cell that raises aborts the whole column. *)
Fixpoint column_convert {A B : Type} (f : A -> result B) (col : list A)
  : result (list B) :=
  match col with
  | [] => Return []
  | a :: rest =>
      do b <- f a;
      do bs <- column_convert f rest;
      Return (b :: bs)
  end.

Definition raises {A : Type} (m : result A) : Prop :=
  match m with
  | Return _ => False
  | Raise _ => True
  end.

(** ** Calendar dates *)

Record date : Type := mkdate { year : nat; month : nat; day : nat }.

Definition is_leap (y : nat) : bool :=
  ((y mod 4 =? 0) && negb (y mod 100 =? 0) || (y mod 400 =? 0))%nat.

Definition days_in_month (y m : nat) : nat :=
  match m with
  | 1 | 3 | 5 | 7 | 8 | 10 | 12 => 31
  | 4 | 6 | 9 | 11 => 30
  | 2 => if is_leap y then 29 else 28
  | _ => 0
  end%nat.

Definition valid_date (y m d : nat) : bool :=
  ((1 <=? m) && (m <=? 12) && (1 <=? d) && (d <=? days_in_month y m))%nat.

Definition date_compare (a b : date) : comparison :=
  match Nat.compare (year a) (year b) with
  | Eq =>
      match Nat.compare (month a) (month b) with
      | Eq => Nat.compare (day a) (day b)
      | c => c
      end
  | c => c
  end.

(** [a <= b] on [datetime.date] objects. *)
Definition date_leb (a b : date) : bool :=
  match date_compare a b with
  | Gt => false
  | _ => true
  end.

(** ** Text of numbers and dates *)

Definition digit_of_ascii (c : ascii) : option nat :=
  let n := nat_of_ascii c in
  if ((48 <=? n) && (n <=? 57))%nat then Some (n - 48)%nat else None.

Definition ascii_of_digit (n : nat) : ascii := ascii_of_nat (48 + n mod 10).

(** The value of a non-empty string of decimal digits. *)
Fixpoint digits_value (acc : nat) (s : string) : option nat :=
  match s with
  | EmptyString => Some acc
  | String c rest =>
      match digit_of_ascii c with
      | Some d => digits_value (10 * acc + d) rest
      | None => None
      end
  end.

Definition nat_of_digits (s : string) : option nat :=
  match s with
  | EmptyString => None
  | _ => digits_value 0 s
  end.

Fixpoint split_on (sep : ascii) (s : string) : list string :=
  match s with
  | EmptyString => [EmptyString]
  | String c rest =>
      if Ascii.eqb c sep then EmptyString :: split_on sep rest
      else
        match split_on sep rest with
        | field :: fields => String c field :: fields
        | [] => [String c EmptyString]
        end
  end.

Definition pad2 (n : nat) : string :=
  String (ascii_of_digit (n / 10)) (String (ascii_of_digit n) EmptyString).

Definition pad4 (n : nat) : string :=
  String (ascii_of_digit (n / 1000))
    (String (ascii_of_digit (n / 100))
       (String (ascii_of_digit (n / 10))
          (String (ascii_of_digit n) EmptyString))).

(** [Timestamp.strftime('%Y-%m')]. *)
Definition strftime_Ym (d : date) : string :=
  pad4 (year d) ++ "-" ++ pad2 (month d).

(** The day-first reading of a [D/M/YYYY] text: what
    [pd.to_datetime(..., dayfirst=True)] makes of a cell written as day,
    month and four-digit year separated by slashes.  [None] when the text is
    not of that form or names no calendar day under the day-first reading. *)
Definition dayfirst_dmy (s : string) : option date :=
  match split_on "/" s with
  | [ds; ms; ys] =>
      if ((String.length ds <=? 2) && (String.length ms <=? 2)
          && (String.length ys =? 4))%nat
      then
        match nat_of_digits ds, nat_of_digits ms, nat_of_digits ys with
        | Some d, Some m, Some y =>
            if valid_date y m d then Some (mkdate y m d) else None
        | _, _, _ => None
        end
      else None
  | _ => None
  end.

(** [Series.str.replace(',', '')] on one string. *)
Fixpoint remove_commas (s : string) : string :=
  match s with
  | EmptyString => EmptyString
  | String c rest =>
      if Ascii.eqb c "," then remove_commas rest
      else String c (remove_commas rest)
  end.

(** A plain decimal numeral: an optional sign, digits, and an optional
    fraction.  It is one reading that Python's [float] and [pd.to_numeric]
    agree on, and serves to instantiate the parameters below. *)
Definition decimal_unsigned (s : string) : option Q :=
  match split_on "." s with
  | [ip] =>
      match nat_of_digits ip with
      | Some n => Some (inject_Z (Z.of_nat n))
      | None => None
      end
  | [ip; fp] =>
      match nat_of_digits ip, nat_of_digits fp with
      | Some n, Some f =>
          Some (inject_Z (Z.of_nat n)
                + Qmake (Z.of_nat f) (Pos.of_nat (10 ^ String.length fp)))%Q
      | _, _ => None
      end
  | _ => None
  end.

Definition decimal_of_string (s : string) : option Q :=
  match s with
  | String "-" rest =>
      match decimal_unsigned rest with
      | Some q => Some (- q)%Q
      | None => None
      end
  | _ => decimal_unsigned s
  end.

(** ** The table returned by [pd.read_csv("data.csv")] *)

(** A cell of a column that [read_csv] may leave as text: a missing cell
    (NaN), a string, or a number when the whole column was inferred
    numeric. *)
Inductive cell : Type :=
| Missing
| Text (s : string)
| Number (q : Q).

(** A value of the [Bedrooms] column: a number or a label. *)
Inductive category : Type :=
| CatNumber (n : Z)
| CatText (s : string).

Record raw_row : Type := mkraw {
  raw_Unit_ID : option string;
  raw_Project : string;
  raw_Contract_Date : option string;
  raw_Contract_Amount : cell;
  raw_m2 : cell;
  raw_Covered_Area : option Q;
  raw_Covered_Veranda : option Q;
  raw_Total_Covered : option Q;
  raw_Bedrooms : option category;
  raw_Market_Segment : string;
  raw_Latitude : option Q;
  raw_Longitude : option Q
}.

(** ** The cleaned table: [data] *)

Record row : Type := mkrow {
  index : nat;
  Unit_ID : option string;
  Project : string;
  Contract_Date : option date;     (* [None] is NaT *)
  Contract_Amount : option Q;      (* [None] is NaN *)
  m2 : option Q;                   (* the [m²] column; [None] is NaN *)
  Covered_Area : Q;
  Covered_Veranda : Q;
  Total_Covered : Q;
  Bedrooms : option category;
  Market_Segment : string;
  Latitude : option Q;
  Longitude : option Q;
  Year_Month : option string
}.

Definition is_text (c : cell) : bool :=
  match c with
  | Text _ => true
  | _ => false
  end.

(** The dtype [read_csv] gives a column: [object] when some cell is a
    string (and for the columns of a table without rows), a numeric dtype
    otherwise. *)
Definition is_object_dtype (col : list cell) : bool :=
  match col with
  | [] => true
  | _ => existsb is_text col
  end.

(** [Series.str]: only an object column has the accessor. *)
Definition str_accessor (col : list cell) : result (list cell) :=
  if is_object_dtype col then Return col else Raise AttributeError.

(** [.str.replace(',', '')] on one cell: a cell that is not a string comes
    out as NaN. *)
Definition str_replace_commas (c : cell) : cell :=
  match c with
  | Text s => Text (remove_commas s)
  | _ => Missing
  end.

(** [.fillna(0)] on one cell. *)
Definition fillna0 (v : option Q) : Q :=
  match v with
  | Some q => q
  | None => 0%Q
  end.

(** One row of [data]: the cells [read_csv] left as they were, the
    converted cells, the covered areas after [fillna(0)], and the
    [Year-Month] text of the converted date. *)
Definition make_row (i : nat) (r : raw_row) (d : option date)
    (a p : option Q) : row :=
  {| index := i;
     Unit_ID := raw_Unit_ID r;
     Project := raw_Project r;
     Contract_Date := d;
     Contract_Amount := p;
     m2 := a;
     Covered_Area := fillna0 (raw_Covered_Area r);
     Covered_Veranda := fillna0 (raw_Covered_Veranda r);
     Total_Covered := fillna0 (raw_Total_Covered r);
     Bedrooms := raw_Bedrooms r;
     Market_Segment := raw_Market_Segment r;
     Latitude := raw_Latitude r;
     Longitude := raw_Longitude r;
     Year_Month := option_map strftime_Ym d |}.

(** The table put together from the untouched and the converted columns. *)
Fixpoint assemble (i : nat) (csv : list raw_row) (dates : list (option date))
    (m2s amounts : list (option Q)) : list row :=
  match csv, dates, m2s, amounts with
  | r :: csv', d :: dates', a :: m2s', p :: amounts' =>
      make_row i r d a p :: assemble (S i) csv' dates' m2s' amounts'
  | _, _, _, _ => []
  end.

Section Loader.

(** Python's [float(s)]: [None] when it raises [ValueError]; the value may
    be NaN. *)
Variable float_of_string : string -> option (option Q).

(** What [pd.to_numeric(..., errors='coerce')] makes of a string: NaN for
    what it cannot read. *)
Variable numeric_of_string : string -> option Q.

(** [pd.to_datetime(..., dayfirst=True)] on a text that has no day-first
    [D/M/YYYY] reading. *)
Variable other_datetime : string -> result (option date).

(** [pd.to_datetime(..., dayfirst=True)] on one cell. *)
Definition to_datetime_dayfirst (c : option string) : result (option date) :=
  match c with
  | None => Return None
  | Some s =>
      match dayfirst_dmy s with
      | Some d => Return (Some d)
      | None => other_datetime s
      end
  end.

(** [pd.to_numeric(..., errors='coerce')] on one cell. *)
Definition to_numeric_coerce (c : cell) : option Q :=
  match c with
  | Missing => None
  | Text s => numeric_of_string s
  | Number q => Some q
  end.

(** [.astype(float)] on one cell of an object column. *)
Definition astype_float (c : cell) : result (option Q) :=
  match c with
  | Missing => Return None
  | Text s =>
      match float_of_string s with
      | Some v => Return v
      | None => Raise ValueError
      end
  | Number q => Return (Some q)
  end.

(** [load_data()], the statements in the order of the source. *)
Definition load_data (csv : list raw_row) : result (list row) :=
  do dates <- column_convert to_datetime_dayfirst (map raw_Contract_Date csv);
  do m2_str <- str_accessor (map raw_m2 csv);
  let m2s := map to_numeric_coerce (map str_replace_commas m2_str) in
  do amount_str <- str_accessor (map raw_Contract_Amount csv);
  do amounts <- column_convert astype_float (map str_replace_commas amount_str);
  Return (assemble 0 csv dates m2s amounts).

End Loader.

(** ** Column reductions that skip NaN *)

Definition dropna_values {A : Type} (col : list (option A)) : list A :=
  omap id col.

Definition Qsum (vs : list Q) : Q := fold_right Qplus 0%Q vs.

(** [Series.sum()]: NaN cells are skipped; the sum of nothing is 0. *)
Definition sum_skipna (col : list (option Q)) : Q := Qsum (dropna_values col).

(** [Series.count()]: the number of cells that are not missing. *)
Definition count_notna {A : Type} (col : list (option A)) : nat :=
  length (dropna_values col).

(** [Series.mean()]: NaN cells are skipped; NaN when nothing is left. *)
Definition mean_skipna (col : list (option Q)) : option Q :=
  match dropna_values col with
  | [] => None
  | vs => Some (Qsum vs / inject_Z (Z.of_nat (length vs)))%Q
  end.

Definition Qltb (a b : Q) : bool := negb (Qle_bool b a).

Fixpoint Qmin_list (best : Q) (vs : list Q) : Q :=
  match vs with
  | [] => best
  | v :: rest => Qmin_list (if Qltb v best then v else best) rest
  end.

Fixpoint Qmax_list (best : Q) (vs : list Q) : Q :=
  match vs with
  | [] => best
  | v :: rest => Qmax_list (if Qltb best v then v else best) rest
  end.

(** [Series.min()] and [Series.max()]: NaN when no cell is left. *)
Definition min_skipna (col : list (option Q)) : option Q :=
  match dropna_values col with
  | [] => None
  | v :: rest => Some (Qmin_list v rest)
  end.

Definition max_skipna (col : list (option Q)) : option Q :=
  match dropna_values col with
  | [] => None
  | v :: rest => Some (Qmax_list v rest)
  end.

(** ** The sidebar: bounds of the price slider *)

(** [int(x)] on a float: truncation toward zero; [ValueError] on NaN. *)
Definition int_of_float (v : option Q) : result Z :=
  match v with
  | Some q => Return (Qnum q ÷ Zpos (Qden q))
  | None => Raise ValueError
  end.

Definition min_price (data : list row) : result Z :=
  int_of_float (min_skipna (map Contract_Amount data)).

Definition max_price (data : list row) : result Z :=
  int_of_float (max_skipna (map Contract_Amount data)).

(** The value the slider starts with: [(min_price, max_price)]. *)
Definition default_price_range (data : list row) : result (Z * Z) :=
  do lo <- min_price data;
  do hi <- max_price data;
  Return (lo, hi).

(** ** The filter *)

Record criteria : Type := mkcriteria {
  start_date : date;
  end_date : date;
  selected_project : string;
  selected_bedrooms : category;
  price_range : Z * Z;
  selected_segment : string
}.

Definition category_eqb (a b : category) : bool :=
  match a, b with
  | CatNumber x, CatNumber y => Z.eqb x y
  | CatText x, CatText y => String.eqb x y
  | _, _ => false
  end.

(** Comparisons of a column against a scalar; a missing cell compares
    [False]. *)
Definition date_ge_scalar (v : option date) (d : date) : bool :=
  match v with
  | Some x => date_leb d x
  | None => false
  end.

Definition date_le_scalar (v : option date) (d : date) : bool :=
  match v with
  | Some x => date_leb x d
  | None => false
  end.

Definition float_ge_int (v : option Q) (n : Z) : bool :=
  match v with
  | Some q => Qle_bool (inject_Z n) q
  | None => false
  end.

Definition float_le_int (v : option Q) (n : Z) : bool :=
  match v with
  | Some q => Qle_bool q (inject_Z n)
  | None => false
  end.

Definition category_eq_scalar (v : option category) (c : category) : bool :=
  match v with
  | Some x => category_eqb x c
  | None => false
  end.

(** [mask1 & mask2] on two boolean Series over the same index. *)
Fixpoint mask_and (a b : list bool) : list bool :=
  match a, b with
  | x :: a', y :: b' => (x && y) :: mask_and a' b'
  | _, _ => []
  end.

Definition all_sentinel : string := "All".

Definition filter_conditions (data : list row) (c : criteria) : list bool :=
  let conditions :=
    mask_and
      (mask_and
         (mask_and
            (map (fun r => date_ge_scalar (Contract_Date r) (start_date c)) data)
            (map (fun r => date_le_scalar (Contract_Date r) (end_date c)) data))
         (map (fun r => float_ge_int (Contract_Amount r) (fst (price_range c))) data))
      (map (fun r => float_le_int (Contract_Amount r) (snd (price_range c))) data) in
  let conditions :=
    if negb (String.eqb (selected_project c) all_sentinel)
    then mask_and conditions
           (map (fun r => String.eqb (Project r) (selected_project c)) data)
    else conditions in
  let conditions :=
    if negb (category_eqb (selected_bedrooms c) (CatText all_sentinel))
    then mask_and conditions
           (map (fun r => category_eq_scalar (Bedrooms r) (selected_bedrooms c)) data)
    else conditions in
  if negb (String.eqb (selected_segment c) all_sentinel)
  then mask_and conditions
         (map (fun r => String.eqb (Market_Segment r) (selected_segment c)) data)
  else conditions.

(** [data[mask]]: the rows whose mask entry is [True], as a new table. *)
Fixpoint boolean_index {A : Type} (rows : list A) (mask : list bool) : list A :=
  match rows, mask with
  | r :: rows', b :: mask' =>
      if b then r :: boolean_index rows' mask' else boolean_index rows' mask'
  | _, _ => []
  end.

Definition filtered_data (data : list row) (c : criteria) : list row :=
  boolean_index data (filter_conditions data c).

(** The criteria of a fresh session as far as the price slider goes: the
    slider at its initial value, the other controls as given. *)
Definition with_price_range (c : criteria) (range : Z * Z) : criteria :=
  {| start_date := start_date c;
     end_date := end_date c;
     selected_project := selected_project c;
     selected_bedrooms := selected_bedrooms c;
     price_range := range;
     selected_segment := selected_segment c |}.

(** ** The re-coercion of [m²] on [filtered_data] *)

Definition with_m2 (r : row) (v : option Q) : row :=
  {| index := index r;
     Unit_ID := Unit_ID r;
     Project := Project r;
     Contract_Date := Contract_Date r;
     Contract_Amount := Contract_Amount r;
     m2 := v;
     Covered_Area := Covered_Area r;
     Covered_Veranda := Covered_Veranda r;
     Total_Covered := Total_Covered r;
     Bedrooms := Bedrooms r;
     Market_Segment := Market_Segment r;
     Latitude := Latitude r;
     Longitude := Longitude r;
     Year_Month := Year_Month r |}.

(** [.astype(float)] on a cell of a numeric column. *)
Definition astype_float_numeric (v : option Q) : option Q := v.

(** [filtered_data['m²'] = filtered_data['m²'].astype(float)]: [load_data]
    leaves the column numeric, so this is the branch taken. *)
Definition recoerce_m2 (fd : list row) : list row :=
  map (fun r => with_m2 r (astype_float_numeric (m2 r))) fd.

(** ** [groupby] and [sort_values] *)

Section GroupBy.

Context {K R : Type}.
Variable cmp : K -> K -> comparison.
Variable key : R -> option K.

(** Insertion of a key into the sorted list of the distinct keys seen. *)
Fixpoint insert_key (k : K) (ks : list K) : list K :=
  match ks with
  | [] => [k]
  | k' :: rest =>
      match cmp k k' with
      | Lt => k :: ks
      | Eq => ks
      | Gt => k' :: insert_key k rest
      end
  end.

(** The group keys of [groupby(key)]: the distinct keys in ascending
    order; rows whose key is missing belong to no group. *)
Definition group_keys (rows : list R) : list K :=
  fold_right insert_key [] (dropna_values (map key rows)).

Definition in_group (k : K) (r : R) : bool :=
  match key r with
  | Some k' =>
      match cmp k' k with
      | Eq => true
      | _ => false
      end
  | None => false
  end.

Definition group_rows (k : K) (rows : list R) : list R :=
  List.filter (in_group k) rows.

(** [groupby(key).agg(f).reset_index()]: one output row per group, in
    ascending order of the key. *)
Definition groupby_agg {T : Type} (agg : K -> list R -> T) (rows : list R)
  : list T :=
  map (fun k => agg k (group_rows k rows)) (group_keys rows).

End GroupBy.

Section SortValues.

Context {T : Type}.
Variable before : T -> T -> bool.

Fixpoint insert_by (x : T) (sorted : list T) : list T :=
  match sorted with
  | [] => [x]
  | y :: rest => if before x y then x :: sorted else y :: insert_by x rest
  end.

(** [sort_values]: the rows reordered so that [before] holds along the
    table; rows that tie keep their order. *)
Definition sort_values (rows : list T) : list T :=
  fold_right insert_by [] rows.

End SortValues.

Definition string_leb (a b : string) : bool :=
  match String_as_OT.compare a b with
  | Gt => false
  | _ => true
  end.

(** ** Tab 1: the monthly timeline *)

(** What a tab shows: a notice that there is nothing to show, or a table. *)
Inductive view (T : Type) : Type :=
| NoData (notice : string)
| Shown (table : T).

Arguments NoData {T} notice.
Arguments Shown {T} table.

Definition is_shown {T : Type} (v : view T) : bool :=
  match v with
  | Shown _ => true
  | NoData _ => false
  end.

(** [DataFrame.empty]. *)
Definition empty {A : Type} (rows : list A) : bool :=
  match rows with
  | [] => true
  | _ => false
  end.

Record monthly_sales_row : Type := mkmonthly {
  ms_Year_Month : string;
  ms_Contract_Amount : Q;          (* 'Contract Amount': 'sum' *)
  ms_Unit_ID : nat                 (* 'Unit ID': 'count' *)
}.

Definition monthly_sales (fd : list row) : list monthly_sales_row :=
  sort_values (fun a b => string_leb (ms_Year_Month a) (ms_Year_Month b))
    (groupby_agg String_as_OT.compare Year_Month
       (fun k g =>
          {| ms_Year_Month := k;
             ms_Contract_Amount := sum_skipna (map Contract_Amount g);
             ms_Unit_ID := count_notna (map Unit_ID g) |})
       fd).

Definition notice_no_data : string :=
  "No data available for the selected filters. Please adjust your filter criteria.".

Definition tab1 (fd : list row) : view (list monthly_sales_row) :=
  if empty fd then NoData notice_no_data else Shown (monthly_sales fd).

(** ** Tab 2: price per m² statistics *)

Definition dropna_m2 (fd : list row) : list row :=
  List.filter (fun r => match m2 r with Some _ => true | None => false end) fd.

(** The label of the first row holding the largest (smallest) value of a
    column without NaN; [ValueError] on an empty column. *)
Fixpoint argbest (better : Q -> Q -> bool) (best : nat * Q)
    (col : list (nat * Q)) : nat :=
  match col with
  | [] => fst best
  | x :: rest =>
      if better (snd x) (snd best) then argbest better x rest
      else argbest better best rest
  end.

Definition labelled_m2 (fd : list row) : list (nat * Q) :=
  omap (fun r => match m2 r with Some v => Some (index r, v) | None => None end) fd.

Definition idxmax (fd : list row) : result nat :=
  match labelled_m2 fd with
  | [] => Raise ValueError
  | x :: rest => Return (argbest (fun v best => Qltb best v) x rest)
  end.

Definition idxmin (fd : list row) : result nat :=
  match labelled_m2 fd with
  | [] => Raise ValueError
  | x :: rest => Return (argbest (fun v best => Qltb v best) x rest)
  end.

(** [df.loc[label]] used as one transaction: the row with that label.  With
    no such row [loc] raises; with several it yields a table, on which the
    [float(...)] of the display raises. *)
Definition loc (label : nat) (fd : list row) : result row :=
  match List.filter (fun r => Nat.eqb (index r) label) fd with
  | [r] => Return r
  | [] => Raise ValueError
  | _ => Raise TypeError
  end.

Record price_statistics : Type := mkstats {
  highest_transaction : row;
  lowest_transaction : row;
  average_price_per_m2 : option Q
}.

Definition notice_no_data_short : string :=
  "No data available for the selected filters.".

Definition notice_no_valid_m2 : string :=
  "No valid price per m² data available for the selected filters.".

Definition notice_unable : string :=
  "Unable to display transaction details. Some data may be missing or invalid.".

(** The [try] block of tab 2; an exception raised inside ends in the
    [except] branch, which shows a notice. *)
Definition tab2_statistics (fd : list row) : view price_statistics :=
  if negb (empty fd) then
    let valid_data := dropna_m2 fd in
    if negb (empty valid_data) then
      let computed :=
        do imax <- idxmax valid_data;
        do highest <- loc imax valid_data;
        do imin <- idxmin valid_data;
        do lowest <- loc imin valid_data;
        Return {| highest_transaction := highest;
                  lowest_transaction := lowest;
                  average_price_per_m2 := mean_skipna (map m2 valid_data) |} in
      match computed with
      | Return stats => Shown stats
      | Raise _ => NoData notice_unable
      end
    else NoData notice_no_valid_m2
  else NoData notice_no_data_short.

(** ** Tab 2: sales by project and the monthly average price per m² *)

(** The table right after [groupby('Project').agg(...).reset_index()] and
    the renaming of its columns. *)
Record project_group : Type := mkgroup {
  pg_Project : string;
  pg_Total_Sales : Q;              (* 'Contract Amount': 'sum' *)
  pg_Average_Price : option Q;     (* 'Contract Amount': 'mean' *)
  pg_Units_Sold : nat;             (* 'Contract Amount': 'count' *)
  pg_Average_Size : option Q       (* 'Total Covered': 'mean' *)
}.

(** The outcome of a float division: a number, an infinity with its sign,
    or NaN. *)
Inductive float : Type :=
| Finite (q : Q)
| Infinity (negative : bool)
| NaN.

Record project_sales_row : Type := mkproject {
  ps_group : project_group;
  ps_Price_per_m2 : float
}.

Definition project_groups (fd : list row) : list project_group :=
  groupby_agg String_as_OT.compare (fun r => Some (Project r))
    (fun k g =>
       {| pg_Project := k;
          pg_Total_Sales := sum_skipna (map Contract_Amount g);
          pg_Average_Price := mean_skipna (map Contract_Amount g);
          pg_Units_Sold := count_notna (map Contract_Amount g);
          pg_Average_Size := mean_skipna (map (fun r => Some (Total_Covered r)) g) |})
    fd.

(** [Series.replace(0, np.nan)] on one cell. *)
Definition replace_zero_nan (v : option Q) : option Q :=
  match v with
  | Some q => if Qeq_bool q 0 then None else Some q
  | None => None
  end.

(** Division of two float cells, as numpy divides: NaN when either is NaN
    and for 0 / 0, an infinity with the sign of the dividend for any other
    division by zero (the zero being +0.0), the quotient otherwise. *)
Definition float_div (a b : option Q) : float :=
  match a, b with
  | Some x, Some y =>
      if Qeq_bool y 0 then
        if Qeq_bool x 0 then NaN else Infinity (Qltb x 0)
      else Finite (x / y)%Q
  | _, _ => NaN
  end.

Definition add_price_per_m2 (g : project_group) : project_sales_row :=
  {| ps_group := g;
     ps_Price_per_m2 :=
       float_div (pg_Average_Price g) (replace_zero_nan (pg_Average_Size g)) |}.

Definition by_total_sales_desc (a b : project_sales_row) : bool :=
  Qle_bool (pg_Total_Sales (ps_group b)) (pg_Total_Sales (ps_group a)).

(** [project_sales] after [sort_values('Total Sales', ascending=False)].
    Rows with equal totals are kept in group order here; the source leaves
    their order to the sorting routine. *)
Definition project_sales (fd : list row) : list project_sales_row :=
  sort_values by_total_sales_desc (map add_price_per_m2 (project_groups fd)).

Record monthly_price_row : Type := mkmonthprice {
  mp_Month : string;
  mp_Price_per_m2 : option Q
}.

Definition monthly_price_m2 (fd : list row) : list monthly_price_row :=
  groupby_agg String_as_OT.compare
    (fun r => option_map strftime_Ym (Contract_Date r))
    (fun k g => {| mp_Month := k; mp_Price_per_m2 := mean_skipna (map m2 g) |})
    fd.

Definition tab2_projects (fd : list row)
  : view (list project_sales_row * list monthly_price_row) :=
  if empty fd then NoData notice_no_data
  else Shown (project_sales fd, monthly_price_m2 fd).

(** ** Tab 3: sales by location *)

Definition dropna_lat_long (fd : list row) : list row :=
  List.filter
    (fun r =>
       match Latitude r, Longitude r with
       | Some _, Some _ => true
       | _, _ => false
       end)
    fd.

Definition location_key (r : row) : option (string * Q * Q) :=
  match Latitude r, Longitude r with
  | Some lat, Some lon => Some (Project r, lat, lon)
  | _, _ => None
  end.

Definition location_compare (a b : string * Q * Q) : comparison :=
  match String_as_OT.compare (fst (fst a)) (fst (fst b)) with
  | Eq =>
      match Qcompare (snd (fst a)) (snd (fst b)) with
      | Eq => Qcompare (snd a) (snd b)
      | c => c
      end
  | c => c
  end.

Record location_group : Type := mklocgroup {
  lg_Project : string;
  lg_Latitude : Q;
  lg_Longitude : Q;
  lg_Total_Sales : Q;              (* 'Contract Amount': 'sum' *)
  lg_Units_Sold : nat;             (* 'Contract Amount': 'count' *)
  lg_Price_per_m2 : option Q       (* 'm²': 'mean' *)
}.

Record location_row : Type := mklocation {
  pl_group : location_group;
  pl_size : float
}.

Definition location_groups (map_data : list row) : list location_group :=
  groupby_agg location_compare location_key
    (fun k g =>
       {| lg_Project := fst (fst k);
          lg_Latitude := snd (fst k);
          lg_Longitude := snd k;
          lg_Total_Sales := sum_skipna (map Contract_Amount g);
          lg_Units_Sold := count_notna (map Contract_Amount g);
          lg_Price_per_m2 := mean_skipna (map m2 g) |})
    map_data.

Section Locations.

(** [np.sqrt] on a float; NaN below zero. *)
Variable np_sqrt : Q -> option Q.

(** [project_locations['size'] = np.sqrt(...) / 100]. *)
Definition add_size (g : location_group) : location_row :=
  {| pl_group := g;
     pl_size := float_div (np_sqrt (lg_Total_Sales g)) (Some (inject_Z 100)) |}.

Definition project_locations (map_data : list row) : list location_row :=
  map add_size (location_groups map_data).

Definition notice_no_location : string :=
  "No location data available for the selected filters.".

Definition tab3 (fd : list row) : view (list location_row) :=
  if empty fd then NoData notice_no_data
  else
    let map_data := dropna_lat_long fd in
    if negb (empty map_data) then Shown (project_locations map_data)
    else NoData notice_no_location.

End Locations.

(** ** The script as a transformer of the store of Python objects

    Variables name objects; an object lives at a location of the heap.  A
    statement [x = e] whose right-hand side builds a table puts the new
    object at a fresh location and binds [x] to it; a statement
    [x[col] = e] or [x.columns = e] writes the object [x] is bound to. *)

Inductive pyobj : Type :=
| DataFrame (rows : list row)
| Transaction (r : row)
| MonthlySales (rows : list monthly_sales_row)
| ProjectGroups (rows : list project_group)
| ProjectSales (rows : list project_sales_row)
| MonthlyPrice (rows : list monthly_price_row)
| LocationGroups (rows : list location_group)
| ProjectLocations (rows : list location_row).

Record store : Type := mkstore {
  env : gmap string nat;
  heap : list pyobj
}.

Definition read (x : string) (st : store) : option pyobj :=
  match env st !! x with
  | Some l => heap st !! l
  | None => None
  end.

(** The rows of the table [x] names (no rows when [x] names no table; the
    script reads a variable only after binding it). *)
Definition frame_of (x : string) (st : store) : list row :=
  match read x st with
  | Some (DataFrame rows) => rows
  | _ => []
  end.

(** [x = <new object>]. *)
Definition assign_new (x : string) (o : pyobj) (st : store) : store :=
  {| env := <[x := length (heap st)]> (env st);
     heap := heap st ++ [o] |}.

(** A write into the object [x] is bound to. *)
Definition setitem (x : string) (f : pyobj -> pyobj) (st : store) : store :=
  match env st !! x with
  | Some l => {| env := env st; heap := alter f l (heap st) |}
  | None => st
  end.

Definition on_frame (f : list row -> list row) (o : pyobj) : pyobj :=
  match o with
  | DataFrame rows => DataFrame (f rows)
  | _ => o
  end.

Section Script.

Variable numeric_of_string : string -> option Q.
Variable np_sqrt : Q -> option Q.

(** [filtered_data = data[filter_conditions]]. *)
Definition stmt_filter (c : criteria) (st : store) : store :=
  let data := frame_of "data" st in
  assign_new "filtered_data"
    (DataFrame (boolean_index data (filter_conditions data c))) st.

(** [filtered_data['m²'] = filtered_data['m²'].astype(float)]. *)
Definition stmt_recoerce (st : store) : store :=
  setitem "filtered_data" (on_frame recoerce_m2) st.

Definition stmt_tab1 (st : store) : store :=
  let fd := frame_of "filtered_data" st in
  if empty fd then st
  else
    let st :=
      assign_new "monthly_sales"
        (MonthlySales
           (groupby_agg String_as_OT.compare Year_Month
              (fun k g =>
                 {| ms_Year_Month := k;
                    ms_Contract_Amount := sum_skipna (map Contract_Amount g);
                    ms_Unit_ID := count_notna (map Unit_ID g) |})
              fd)) st in
    assign_new "monthly_sales" (MonthlySales (monthly_sales fd)) st.

Definition stmt_tab2_statistics (st : store) : store :=
  let fd := frame_of "filtered_data" st in
  if negb (empty fd) then
    let st := assign_new "valid_data" (DataFrame (dropna_m2 fd)) st in
    let valid_data := frame_of "valid_data" st in
    if negb (empty valid_data) then
      match tab2_statistics fd with
      | Shown stats =>
          assign_new "lowest_transaction" (Transaction (lowest_transaction stats))
            (assign_new "highest_transaction"
               (Transaction (highest_transaction stats)) st)
      | NoData _ => st
      end
    else st
  else st.

Definition is_numeric_category (v : option category) : bool :=
  match v with
  | Some (CatNumber _) => true
  | Some (CatText s) =>
      match numeric_of_string s with
      | Some _ => true
      | None => false
      end
  | None => false
  end.

Definition stmt_tab2_projects (st : store) : store :=
  let fd := frame_of "filtered_data" st in
  if empty fd then st
  else
    let st := assign_new "project_sales" (ProjectGroups (project_groups fd)) st in
    (* project_sales.columns = [...] *)
    let st := setitem "project_sales" (fun o => o) st in
    (* project_sales['Price per m²'] = ... *)
    let st :=
      setitem "project_sales"
        (fun o =>
           match o with
           | ProjectGroups gs => ProjectSales (map add_price_per_m2 gs)
           | _ => o
           end) st in
    let st := assign_new "project_sales" (ProjectSales (project_sales fd)) st in
    let st :=
      assign_new "bedroom_data"
        (DataFrame
           (boolean_index fd (map (fun r => is_numeric_category (Bedrooms r)) fd)))
        st in
    let st := assign_new "monthly_price_m2" (MonthlyPrice (monthly_price_m2 fd)) st in
    (* monthly_price_m2.columns = [...] *)
    setitem "monthly_price_m2" (fun o => o) st.

Definition stmt_tab3 (st : store) : store :=
  let fd := frame_of "filtered_data" st in
  if empty fd then st
  else
    let st := assign_new "map_data" (DataFrame (dropna_lat_long fd)) st in
    let map_data := frame_of "map_data" st in
    if negb (empty map_data) then
      (* project_locations = map_data.copy() *)
      let st := assign_new "project_locations" (DataFrame map_data) st in
      let st :=
        assign_new "project_locations"
          (LocationGroups (location_groups (frame_of "project_locations" st))) st in
      (* project_locations.columns = [...] *)
      let st := setitem "project_locations" (fun o => o) st in
      (* project_locations['size'] = ... *)
      setitem "project_locations"
        (fun o =>
           match o with
           | LocationGroups gs => ProjectLocations (map (add_size np_sqrt) gs)
           | _ => o
           end) st
    else st.

(** Everything the script does after [data = load_data()]. *)
Definition run_script (c : criteria) (st : store) : store :=
  stmt_tab3
    (stmt_tab2_projects
       (stmt_tab2_statistics
          (stmt_tab1
             (stmt_recoerce
                (stmt_filter c st))))).

End Script.

(** The variable [x] names the object [o] at location [l], and no other
    variable names that location. *)
Definition sole_name (x : string) (l : nat) (o : pyobj) (st : store) : Prop :=
  env st !! x = Some l /\
  heap st !! l = Some o /\
  forall y : string, y <> x -> env st !! y <> Some l.

(** ** The sidebar: date bounds and option lists *)

Definition date_ltb (a b : date) : bool :=
  match date_compare a b with
  | Lt => true
  | _ => false
  end.

Fixpoint date_min_list (best : date) (ds : list date) : date :=
  match ds with
  | [] => best
  | d :: rest => date_min_list (if date_ltb d best then d else best) rest
  end.

Fixpoint date_max_list (best : date) (ds : list date) : date :=
  match ds with
  | [] => best
  | d :: rest => date_max_list (if date_ltb best d then d else best) rest
  end.

(** [data['Contract Date'].min().date()]: NaT cells are skipped.  With no
    dated row the minimum is NaT; what the script makes of it from there is
    not modelled, and the bound is [None]. *)
Definition min_date_dataset (data : list row) : option date :=
  match dropna_values (map Contract_Date data) with
  | [] => None
  | d :: rest => Some (date_min_list d rest)
  end.

(** [data['Contract Date'].max().date()]. *)
Definition max_date (data : list row) : option date :=
  match dropna_values (map Contract_Date data) with
  | [] => None
  | d :: rest => Some (date_max_list d rest)
  end.

(** [datetime(2022, 1, 1).date()]. *)
Definition default_min_date : date := mkdate 2022 1 1.

(** Python's [max(a, b)]: [b] when [b > a], else [a]. *)
Definition py_max_date (a b : date) : date := if date_ltb a b then b else a.

(** [default_start_date = max(min_date_dataset, default_min_date)]. *)
Definition default_start_date (data : list row) : option date :=
  option_map (fun earliest => py_max_date earliest default_min_date)
    (min_date_dataset data).

(** [Series.unique().tolist()]: the distinct values in order of first
    appearance. *)
Fixpoint unique (values : list string) : list string :=
  match values with
  | [] => []
  | v :: rest => v :: List.filter (fun w => negb (String.eqb w v)) (unique rest)
  end.

(** [sorted(...)] on a list of strings. *)
Definition sorted (values : list string) : list string :=
  sort_values string_leb values.

(** [projects = ["All"] + sorted(data["Project"].unique().tolist())]. *)
Definition projects (data : list row) : list string :=
  all_sentinel :: sorted (unique (map Project data)).

(** [segments = ["All"] + sorted(data["Market Segment"].unique().tolist())]. *)
Definition segments (data : list row) : list string :=
  all_sentinel :: sorted (unique (map Market_Segment data)).

(** ** Notions used to state the properties *)

(** The text of a date written day first. *)
Definition dmy_text (d m y : nat) : string :=
  pad2 d ++ "/" ++ pad2 m ++ "/" ++ pad4 y.

(** The order of the calendar. *)
Definition date_le (a b : date) : Prop :=
  (year a < year b)%nat \/
  (year a = year b /\
   ((month a < month b)%nat \/ (month a = month b /\ (day a <= day b)%nat))).

(** What the filter is meant to keep, criterion by criterion. *)
Definition in_date_range (c : criteria) (r : row) : Prop :=
  match Contract_Date r with
  | Some d => date_le (start_date c) d /\ date_le d (end_date c)
  | None => False
  end.

Definition in_price_range (c : criteria) (r : row) : Prop :=
  match Contract_Amount r with
  | Some q =>
      (inject_Z (fst (price_range c)) <= q)%Q /\
      (q <= inject_Z (snd (price_range c)))%Q
  | None => False
  end.

Definition project_matches (c : criteria) (r : row) : Prop :=
  selected_project c = all_sentinel \/ Project r = selected_project c.

Definition bedrooms_match (c : criteria) (r : row) : Prop :=
  selected_bedrooms c = CatText all_sentinel \/
  Bedrooms r = Some (selected_bedrooms c).

Definition segment_matches (c : criteria) (r : row) : Prop :=
  selected_segment c = all_sentinel \/ Market_Segment r = selected_segment c.

Definition satisfies (c : criteria) (r : row) : Prop :=
  in_date_range c r /\ in_price_range c r /\
  project_matches c r /\ bedrooms_match c r /\ segment_matches c r.

(** The row-wise reading of the mask the script builds column by column. *)
Definition keeps (c : criteria) (r : row) : bool :=
  date_ge_scalar (Contract_Date r) (start_date c)
  && date_le_scalar (Contract_Date r) (end_date c)
  && float_ge_int (Contract_Amount r) (fst (price_range c))
  && float_le_int (Contract_Amount r) (snd (price_range c))
  && (String.eqb (selected_project c) all_sentinel
      || String.eqb (Project r) (selected_project c))
  && (category_eqb (selected_bedrooms c) (CatText all_sentinel)
      || category_eq_scalar (Bedrooms r) (selected_bedrooms c))
  && (String.eqb (selected_segment c) all_sentinel
      || String.eqb (Market_Segment r) (selected_segment c)).

(** The rows of a table that fall in month [m]. *)
Definition month_rows (m : string) (fd : list row) : list row :=
  group_rows String_as_OT.compare Year_Month m fd.

Definition monthly_agg (k : string) (g : list row) : monthly_sales_row :=
  {| ms_Year_Month := k;
     ms_Contract_Amount := sum_skipna (map Contract_Amount g);
     ms_Unit_ID := count_notna (map Unit_ID g) |}.

(** The rows of a table that belong to project [p]. *)
Definition project_rows (p : string) (fd : list row) : list row :=
  group_rows String_as_OT.compare (fun r => Some (Project r)) p fd.

Definition ps_Project (o : project_sales_row) : string := pg_Project (ps_group o).
Definition ps_Total_Sales (o : project_sales_row) : Q := pg_Total_Sales (ps_group o).
Definition ps_Average_Price (o : project_sales_row) : option Q :=
  pg_Average_Price (ps_group o).
Definition ps_Average_Size (o : project_sales_row) : option Q :=
  pg_Average_Size (ps_group o).

(** Every variable of the store names a location of its heap. *)
Definition well_bound (st : store) : Prop :=
  forall z l, env st !! z = Some l -> (l < length (heap st))%nat.

#[local] Instance Qle_decision (a b : Q) : Decision (a <= b)%Q :=
  match Qlt_le_dec b a with
  | left H => right (Qlt_not_le _ _ H)
  | right H => left H
  end.

#[local] Instance date_le_decision (a b : date) : Decision (date_le a b).
Proof. unfold date_le. apply _. Defined.

#[local] Instance category_eq_decision : EqDecision category.
Proof. solve_decision. Defined.

#[local] Instance in_date_range_decision (c : criteria) (r : row) :
  Decision (in_date_range c r).
Proof. unfold in_date_range. destruct (Contract_Date r); apply _. Defined.

#[local] Instance in_price_range_decision (c : criteria) (r : row) :
  Decision (in_price_range c r).
Proof. unfold in_price_range. destruct (Contract_Amount r); apply _. Defined.

#[local] Instance satisfies_decision (c : criteria) (r : row) :
  Decision (satisfies c r).
Proof.
  unfold satisfies, project_matches, bedrooms_match, segment_matches. apply _.
Defined.

(** What [load_data] needs of a file to return a table. *)
Definition loadable (float_of_string : string -> option (option Q))
    (other_datetime : string -> result (option date))
    (csv : list raw_row) : Prop :=
  (forall raw, In raw csv ->
     ~ raises (to_datetime_dayfirst other_datetime (raw_Contract_Date raw))) /\
  is_object_dtype (map raw_m2 csv) = true /\
  is_object_dtype (map raw_Contract_Amount csv) = true /\
  (forall raw s, In raw csv -> raw_Contract_Amount raw = Text s ->
     float_of_string (remove_commas s) <> None).

(** The row belongs to one of the groups [ks]. *)
Definition in_some_group {K R : Type} (cmp : K -> K -> comparison)
    (key : R -> option K) (ks : list K) (r : R) : bool :=
  existsb (fun k => in_group cmp key k r) ks.

(** 1 for a cell that is present, 0 for a missing one. *)
Definition present {A : Type} (c : option A) : nat :=
  match c with
  | Some _ => 1
  | None => 0
  end.

(** The rows of a table whose contract date falls in month [m]. *)
Definition date_month_rows (m : string) (fd : list row) : list row :=
  group_rows String_as_OT.compare
    (fun r => option_map strftime_Ym (Contract_Date r)) m fd.

(** The year and month of a date, in calendar order. *)
Definition year_month_compare (a b : date) : comparison :=
  match Nat.compare (year a) (year b) with
  | Eq => Nat.compare (month a) (month b)
  | c => c
  end.

(** Each row's [Year-Month] is the text of its own contract date, as in a
    table made by [load_data]. *)
Definition year_month_of_date (fd : list row) : Prop :=
  forall r, In r fd -> Year_Month r = option_map strftime_Ym (Contract_Date r).

(** The criteria [c] with another project chosen. *)
Definition with_project (c : criteria) (p : string) : criteria :=
  {| start_date := start_date c;
     end_date := end_date c;
     selected_project := p;
     selected_bedrooms := selected_bedrooms c;
     price_range := price_range c;
     selected_segment := selected_segment c |}.

(** The criteria [c] with another date range. *)
Definition with_dates (c : criteria) (first last : date) : criteria :=
  {| start_date := first;
     end_date := last;
     selected_project := selected_project c;
     selected_bedrooms := selected_bedrooms c;
     price_range := price_range c;
     selected_segment := selected_segment c |}.

(** ** Sample data *)

(** Stand-ins for the library functions, to run the loader on sample
    files: plain decimal numerals for [float] and [to_numeric], no date
    format besides the day-first one, and a whole-number root. *)
Definition decimal_float (s : string) : option (option Q) :=
  option_map Some (decimal_of_string s).

Definition strict_datetime (s : string) : result (option date) :=
  Raise ValueError.

Definition whole_sqrt (q : Q) : option Q :=
  if Qle_bool 0 q then Some (inject_Z (Z.sqrt (Qfloor q))) else None.

Definition sample_load (csv : list raw_row) : result (list row) :=
  load_data decimal_float decimal_of_string strict_datetime csv.

Definition raw_sale (unit : string) (project day : string) (amount area : cell)
  : raw_row :=
  {| raw_Unit_ID := Some unit;
     raw_Project := project;
     raw_Contract_Date := Some day;
     raw_Contract_Amount := amount;
     raw_m2 := area;
     raw_Covered_Area := Some (inject_Z 120);
     raw_Covered_Veranda := None;
     raw_Total_Covered := Some (inject_Z 120);
     raw_Bedrooms := Some (CatNumber 3);
     raw_Market_Segment := "Residential";
     raw_Latitude := None;
     raw_Longitude := None |}.

(** A file whose second row has no contract amount. *)
Definition sample_csv : list raw_row :=
  [ raw_sale "U1" "Aphrodite" "03/04/2025" (Text "250,000") (Text "3,100.50");
    raw_sale "U2" "Aphrodite" "15/11/2024" Missing (Text "n/a") ].

(** A file whose second row has a contract amount that is no number. *)
Definition sample_csv_bad_amount : list raw_row :=
  [ raw_sale "U1" "Aphrodite" "03/04/2025" (Text "250,000") (Text "3,100.50");
    raw_sale "U2" "Aphrodite" "15/11/2024" (Text "on request") (Text "2,900") ].

Definition sample_table : list row :=
  match sample_load sample_csv with
  | Return data => data
  | Raise _ => []
  end.

Definition sale (i : nat) (unit : option string) (project : string) (d : date)
    (amount area : option Q) (covered : Q) : row :=
  {| index := i;
     Unit_ID := unit;
     Project := project;
     Contract_Date := Some d;
     Contract_Amount := amount;
     m2 := area;
     Covered_Area := covered;
     Covered_Veranda := 0%Q;
     Total_Covered := covered;
     Bedrooms := Some (CatNumber 3);
     Market_Segment := "Residential";
     Latitude := None;
     Longitude := None;
     Year_Month := Some (strftime_Ym d) |}.

(** Months 2024-01, 2024-01, 2024-02 with amounts 100, 200, 50; the area
    of the second row is missing; project A has no covered area. *)
Definition sample_subset : list row :=
  [ sale 0 (Some "U1") "A" (mkdate 2024 1 5) (Some (inject_Z 100))
      (Some (inject_Z 100)) 0%Q;
    sale 1 (Some "U2") "A" (mkdate 2024 1 20) (Some (inject_Z 200)) None 0%Q;
    sale 2 (Some "U3") "B" (mkdate 2024 2 3) (Some (inject_Z 50))
      (Some (inject_Z 300)) (inject_Z 25) ].

(** The same months, the first row without a unit id. *)
Definition sample_subset_missing_unit : list row :=
  [ sale 0 None "A" (mkdate 2024 1 5) (Some (inject_Z 100)) None 0%Q;
    sale 1 (Some "U2") "A" (mkdate 2024 1 20) (Some (inject_Z 200)) None 0%Q ].

(** Projects A, A, B with amounts 100, 500, 300. *)
Definition sample_projects : list row :=
  [ sale 0 (Some "U1") "A" (mkdate 2024 1 5) (Some (inject_Z 100)) None 0%Q;
    sale 1 (Some "U2") "A" (mkdate 2024 1 20) (Some (inject_Z 500)) None 0%Q;
    sale 2 (Some "U3") "B" (mkdate 2024 2 3) (Some (inject_Z 300)) None 0%Q ].

Definition sample_criteria : criteria :=
  {| start_date := mkdate 2024 1 1;
     end_date := mkdate 2024 12 31;
     selected_project := "A";
     selected_bedrooms := CatText "All";
     price_range := (50, 200);
     selected_segment := "All" |}.

(** A table whose largest amount is 200.5. *)
Definition sample_fractional : list row :=
  [ sale 0 (Some "U1") "A" (mkdate 2024 1 5) (Some (inject_Z 100)) None 0%Q;
    sale 1 (Some "U2") "B" (mkdate 2024 1 20) (Some (401 # 2)%Q) None 0%Q ].

(** The store right after [data = load_data()]. *)
Definition sample_store : store :=
  {| env := {[ "data" := 0%nat ]}; heap := [DataFrame sample_subset] |}.

(** A file whose contract amounts were written without separators and
    read as numbers. *)
Definition sample_csv_numeric : list raw_row :=
  [ raw_sale "U1" "Aphrodite" "03/04/2025" (Number (inject_Z 250000))
      (Text "3,100.50");
    raw_sale "U2" "Aphrodite" "15/11/2024" (Number (inject_Z 310000))
      (Text "2,900") ].

(** Criteria that no row of the sample subset meets. *)
Definition sample_criteria_none : criteria :=
  {| start_date := mkdate 2024 1 1;
     end_date := mkdate 2024 12 31;
     selected_project := "All";
     selected_bedrooms := CatText "All";
     price_range := (0, 0);
     selected_segment := "All" |}.

(** The statistics of the sample subset. *)
Definition sample_statistics : price_statistics :=
  {| highest_transaction :=
       sale 2 (Some "U3") "B" (mkdate 2024 2 3) (Some (inject_Z 50))
         (Some (inject_Z 300)) (inject_Z 25);
     lowest_transaction :=
       sale 0 (Some "U1") "A" (mkdate 2024 1 5) (Some (inject_Z 100))
         (Some (inject_Z 100)) 0%Q;
     average_price_per_m2 := Some (400 # 2)%Q |}.

(** * Properties *)

Ltac lia_divmod := zify; Z.to_euclidean_division_equations; lia.

(** ** Digits and the day-first reading *)

Lemma digit_of_ascii_of_digit (n : nat) :
  digit_of_ascii (ascii_of_digit n) = Some (n mod 10)%nat.
Proof.
  unfold ascii_of_digit.
  assert (H : (n mod 10 < 10)%nat) by (apply Nat.mod_upper_bound; lia).
  generalize dependent (n mod 10)%nat. intros k H.
  do 10 (destruct k as [|k]; [reflexivity|]). lia.
Qed.

Lemma ascii_of_digit_not_slash (n : nat) :
  Ascii.eqb (ascii_of_digit n) "/" = false.
Proof.
  unfold ascii_of_digit.
  assert (H : (n mod 10 < 10)%nat) by (apply Nat.mod_upper_bound; lia).
  generalize dependent (n mod 10)%nat. intros k H.
  do 10 (destruct k as [|k]; [reflexivity|]). lia.
Qed.

Lemma split_on_digit (n : nat) (rest : string) :
  split_on "/" (String (ascii_of_digit n) rest) =
  match split_on "/" rest with
  | field :: fields => String (ascii_of_digit n) field :: fields
  | [] => [String (ascii_of_digit n) EmptyString]
  end.
Proof. cbn [split_on]. now rewrite ascii_of_digit_not_slash. Qed.

Lemma nat_of_digits_pad2 (n : nat) :
  (n < 100)%nat -> nat_of_digits (pad2 n) = Some n.
Proof.
  intros Hn. unfold nat_of_digits, pad2. cbn [digits_value].
  rewrite !digit_of_ascii_of_digit. f_equal. lia_divmod.
Qed.

Lemma nat_of_digits_pad4 (n : nat) :
  (n < 100 * 100)%nat -> nat_of_digits (pad4 n) = Some n.
Proof.
  intros Hn. unfold nat_of_digits, pad4. cbn [digits_value].
  rewrite !digit_of_ascii_of_digit. f_equal. lia_divmod.
Qed.

Lemma valid_date_bounds (y m d : nat) :
  valid_date y m d = true -> (1 <= m <= 12 /\ 1 <= d <= 31)%nat.
Proof.
  unfold valid_date. rewrite !andb_true_iff, !Nat.leb_le.
  intros [[[H1 H2] H3] H4].
  assert (days_in_month y m <= 31)%nat.
  { unfold days_in_month.
    do 13 (destruct m as [|m]; [try lia; try (destruct (is_leap y); lia)|]). lia. }
  lia.
Qed.

Lemma dayfirst_dmy_text (d m y : nat) :
  valid_date y m d = true -> (y < 100 * 100)%nat ->
  dayfirst_dmy (dmy_text d m y) = Some (mkdate y m d).
Proof.
  intros Hv Hy. pose proof (valid_date_bounds _ _ _ Hv) as [Hm Hd].
  unfold dayfirst_dmy, dmy_text, pad2 at 1 2, pad4.
  cbv [String.append].
  rewrite !split_on_digit.
  change (split_on "/" (String "/" ?s)) with (EmptyString :: split_on "/" s).
  rewrite !split_on_digit.
  change (split_on "/" (String "/" ?s)) with (EmptyString :: split_on "/" s).
  rewrite !split_on_digit.
  cbn [split_on String.length Nat.leb Nat.eqb andb].
  fold (pad2 d). fold (pad2 m). fold (pad4 y).
  rewrite !nat_of_digits_pad2 by lia. rewrite nat_of_digits_pad4 by lia.
  now rewrite Hv.
Qed.

(** ** The loader *)

Lemma column_convert_Forall2 {A B : Type} (f : A -> result B) col out :
  column_convert f col = Return out ->
  Forall2 (fun a b => f a = Return b) col out.
Proof.
  revert out. induction col as [|a col IH]; intros out H; cbn in H.
  - injection H as <-. constructor.
  - destruct (f a) as [b|] eqn:Hb; cbn in H; [|discriminate].
    destruct (column_convert f col) as [bs|] eqn:Hbs; cbn in H; [|discriminate].
    injection H as <-. constructor; auto.
Qed.

Lemma column_convert_raises {A B : Type} (f : A -> result B) col a :
  In a col -> raises (f a) -> raises (column_convert f col).
Proof.
  induction col as [|a' col IH]; intros Hin Hr; [destruct Hin|].
  cbn. destruct (f a') as [b|] eqn:Hb; cbn; [|exact I].
  destruct Hin as [->|Hin]; [rewrite Hb in Hr; destruct Hr|].
  specialize (IH Hin Hr).
  destruct (column_convert f col); cbn; [destruct IH|exact I].
Qed.

Lemma column_convert_total {A B : Type} (f : A -> result B) col :
  (forall a, In a col -> exists b, f a = Return b) ->
  exists out, column_convert f col = Return out.
Proof.
  induction col as [|a col IH]; intros H; cbn.
  - eauto.
  - destruct (H a) as [b ->]; [now left|]. cbn.
    destruct IH as [bs ->]; [intros; apply H; now right|]. cbn. eauto.
Qed.

Lemma str_accessor_inv col out : str_accessor col = Return out -> out = col.
Proof. unfold str_accessor. destruct (is_object_dtype col); congruence. Qed.

Lemma assemble_lookup csv : forall dates m2s amounts k i raw d a p,
  csv !! i = Some raw -> dates !! i = Some d -> m2s !! i = Some a ->
  amounts !! i = Some p ->
  assemble k csv dates m2s amounts !! i = Some (make_row (k + i) raw d a p).
Proof.
  induction csv as [|r csv IH]; intros dates m2s amounts k i raw d a p Hc Hd Ha Hp.
  - destruct i; discriminate.
  - destruct dates as [|d0 dates]; [destruct i; discriminate|].
    destruct m2s as [|a0 m2s]; [destruct i; discriminate|].
    destruct amounts as [|p0 amounts]; [destruct i; discriminate|].
    destruct i as [|i]; cbn in *.
    + injection Hc as ->. injection Hd as ->. injection Ha as ->.
      injection Hp as ->. now rewrite Nat.add_0_r.
    + rewrite (IH _ _ _ (S k) i raw d a p) by assumption.
      do 2 f_equal. lia.
Qed.

Lemma assemble_length csv : forall dates m2s amounts k,
  length dates = length csv -> length m2s = length csv ->
  length amounts = length csv ->
  length (assemble k csv dates m2s amounts) = length csv.
Proof.
  induction csv as [|r csv IH]; intros dates m2s amounts k Hd Ha Hp; [reflexivity|].
  destruct dates as [|d0 dates]; [discriminate|].
  destruct m2s as [|a0 m2s]; [discriminate|].
  destruct amounts as [|p0 amounts]; [discriminate|].
  cbn in *. f_equal. apply IH; lia.
Qed.

Lemma assemble_index csv : forall dates m2s amounts k,
  map index (assemble k csv dates m2s amounts) =
  seq k (length (assemble k csv dates m2s amounts)).
Proof.
  induction csv as [|r csv IH]; intros dates m2s amounts k; [reflexivity|].
  destruct dates as [|d0 dates]; [reflexivity|].
  destruct m2s as [|a0 m2s]; [reflexivity|].
  destruct amounts as [|p0 amounts]; [reflexivity|].
  cbn. f_equal. apply IH.
Qed.

Section LoaderFacts.

Variable float_of_string : string -> option (option Q).
Variable numeric_of_string : string -> option Q.
Variable other_datetime : string -> result (option date).

Abbreviation load := (load_data float_of_string numeric_of_string other_datetime).

Lemma load_data_inv csv data :
  load csv = Return data ->
  exists dates amounts,
    column_convert (to_datetime_dayfirst other_datetime)
      (map raw_Contract_Date csv) = Return dates /\
    column_convert (astype_float float_of_string)
      (map str_replace_commas (map raw_Contract_Amount csv)) = Return amounts /\
    data = assemble 0 csv dates
             (map (to_numeric_coerce numeric_of_string)
                (map str_replace_commas (map raw_m2 csv)))
             amounts.
Proof.
  unfold load_data. intros H.
  destruct (column_convert _ (map raw_Contract_Date csv)) as [dates|] eqn:Hd;
    cbn in H; [|discriminate].
  destruct (str_accessor (map raw_m2 csv)) as [m2_str|] eqn:Hm;
    cbn in H; [|discriminate].
  apply str_accessor_inv in Hm as ->.
  destruct (str_accessor (map raw_Contract_Amount csv)) as [amount_str|] eqn:Ha;
    cbn in H; [|discriminate].
  apply str_accessor_inv in Ha as ->.
  destruct (column_convert _ (map str_replace_commas _)) as [amounts|] eqn:Hp;
    cbn in H; [|discriminate].
  injection H as <-. eauto.
Qed.

(** Row [i] of the loaded table is made of row [i] of the file. *)
Lemma load_data_row csv data i raw :
  load csv = Return data -> csv !! i = Some raw ->
  exists d p,
    to_datetime_dayfirst other_datetime (raw_Contract_Date raw) = Return d /\
    astype_float float_of_string (str_replace_commas (raw_Contract_Amount raw))
      = Return p /\
    data !! i =
      Some (make_row i raw d
              (to_numeric_coerce numeric_of_string
                 (str_replace_commas (raw_m2 raw))) p).
Proof.
  intros H Hi. apply load_data_inv in H as (dates & amounts & Hd & Hp & ->).
  apply column_convert_Forall2 in Hd, Hp.
  assert (Hdi : map raw_Contract_Date csv !! i = Some (raw_Contract_Date raw))
    by (now rewrite list_lookup_fmap, Hi).
  destruct (Forall2_lookup_l _ _ _ _ _ Hd Hdi) as (d & Hdl & Hdv).
  assert (Hpi : map str_replace_commas (map raw_Contract_Amount csv) !! i
                = Some (str_replace_commas (raw_Contract_Amount raw)))
    by (now rewrite !list_lookup_fmap, Hi).
  destruct (Forall2_lookup_l _ _ _ _ _ Hp Hpi) as (p & Hpl & Hpv).
  exists d, p. repeat split; [assumption..|].
  apply (assemble_lookup csv _ _ _ 0%nat i raw d _ p); try assumption.
  now rewrite !list_lookup_fmap, Hi.
Qed.

Lemma load_data_length csv data :
  load csv = Return data -> length data = length csv.
Proof.
  intros H. apply load_data_inv in H as (dates & amounts & Hd & Hp & ->).
  apply column_convert_Forall2 in Hd, Hp.
  apply Forall2_length in Hd, Hp. rewrite !length_map in *.
  apply assemble_length; rewrite ?length_map; congruence.
Qed.

(** The index labels of the loaded table are [0, 1, ..., n-1]. *)
Lemma load_data_index csv data :
  load csv = Return data -> map index data = seq 0 (length data).
Proof.
  intros H. apply load_data_inv in H as (dates & amounts & _ & _ & ->).
  apply assemble_index.
Qed.

(** C1. A [Contract Date] cell written day first, as in "03/04/2025", is
    loaded as the date whose day is the first field and whose month is the
    second (3 April 2025, not 4 March), and the [Year-Month] key of that row
    is the year and month of that day-first date. *)
Theorem contract_date_parsed_day_first csv data i raw d m y :
  load csv = Return data ->
  csv !! i = Some raw ->
  raw_Contract_Date raw = Some (dmy_text d m y) ->
  valid_date y m d = true ->
  (y < 100 * 100)%nat ->
  exists r,
    data !! i = Some r /\
    Contract_Date r = Some (mkdate y m d) /\
    Year_Month r = Some (pad4 y ++ "-" ++ pad2 m)%string.
Proof.
  intros Hload Hi Hcell Hvalid Hy.
  destruct (load_data_row _ _ _ _ Hload Hi) as (dt & p & Hdt & _ & Hrow).
  rewrite Hcell in Hdt. cbn in Hdt.
  rewrite (dayfirst_dmy_text _ _ _ Hvalid Hy) in Hdt. injection Hdt as <-.
  eexists. split; [exact Hrow|]. split; reflexivity.
Qed.


End LoaderFacts.

(** ** The filter *)

Lemma date_leb_spec (a b : date) : date_leb a b = true <-> date_le a b.
Proof.
  unfold date_leb, date_compare, date_le.
  destruct (Nat.compare_spec (year a) (year b));
    destruct (Nat.compare_spec (month a) (month b));
    destruct (Nat.compare_spec (day a) (day b));
    split; intros; try discriminate; try reflexivity; lia.
Qed.

Lemma category_eqb_eq (a b : category) : category_eqb a b = true <-> a = b.
Proof.
  destruct a, b; cbn; try (split; [discriminate|congruence]).
  - rewrite Z.eqb_eq. split; congruence.
  - rewrite String.eqb_eq. split; congruence.
Qed.

Lemma mask_and_map {A : Type} (f g : A -> bool) (rows : list A) :
  mask_and (map f rows) (map g rows) = map (fun r => f r && g r) rows.
Proof. induction rows as [|r rows IH]; cbn; [reflexivity|now rewrite IH]. Qed.

Lemma boolean_index_map {A : Type} (f : A -> bool) (rows : list A) :
  boolean_index rows (map f rows) = List.filter f rows.
Proof.
  induction rows as [|r rows IH]; cbn; [reflexivity|].
  rewrite IH. reflexivity.
Qed.

Lemma filter_conditions_rowwise (data : list row) (c : criteria) :
  filter_conditions data c = map (keeps c) data.
Proof.
  unfold filter_conditions, keeps.
  rewrite !mask_and_map.
  destruct (String.eqb (selected_project c) all_sentinel); cbn [negb orb];
    rewrite ?mask_and_map;
    (destruct (category_eqb (selected_bedrooms c) (CatText all_sentinel));
     cbn [negb orb]; rewrite ?mask_and_map;
     (destruct (String.eqb (selected_segment c) all_sentinel);
      cbn [negb orb]; rewrite ?mask_and_map;
      apply map_ext; intros r; rewrite ?andb_true_r; reflexivity)).
Qed.

Lemma filtered_data_rowwise (data : list row) (c : criteria) :
  filtered_data data c = List.filter (keeps c) data.
Proof.
  unfold filtered_data. rewrite filter_conditions_rowwise.
  apply boolean_index_map.
Qed.

Lemma keeps_spec (c : criteria) (r : row) : keeps c r = true <-> satisfies c r.
Proof.
  unfold keeps, satisfies, in_date_range, in_price_range, project_matches,
    bedrooms_match, segment_matches.
  rewrite !andb_true_iff, !orb_true_iff, !String.eqb_eq, !category_eqb_eq.
  unfold date_ge_scalar, date_le_scalar, float_ge_int, float_le_int,
    category_eq_scalar.
  destruct (Contract_Date r) as [d|], (Contract_Amount r) as [q|],
    (Bedrooms r) as [b|];
    rewrite ?date_leb_spec, ?Qle_bool_iff, ?category_eqb_eq;
    intuition (try discriminate; try congruence).
Qed.

(** C2. The filter returns exactly the rows of the table that satisfy all
    the criteria, in table order: date within the range, amount within the
    range, and for project, bedrooms and market segment either the sentinel
    "All" or an exact match. *)
Theorem filter_returns_conjunction (data : list row) (c : criteria) :
  filtered_data data c = filter (satisfies c) data /\
  (forall r, In r (filtered_data data c) <-> In r data /\ satisfies c r) /\
  (selected_project c = all_sentinel ->
   forall r, In r (filtered_data data c) <->
             In r data /\ in_date_range c r /\ in_price_range c r /\
             bedrooms_match c r /\ segment_matches c r).
Proof.
  assert (Hin : forall r, In r (filtered_data data c) <-> In r data /\ satisfies c r).
  { intros r. rewrite filtered_data_rowwise, filter_In, keeps_spec. reflexivity. }
  split; [|split].
  - rewrite filtered_data_rowwise.
    induction data as [|r data IH]; [reflexivity|].
    cbn [List.filter]. rewrite filter_cons.
    destruct (keeps c r) eqn:Hk.
    + rewrite decide_True by (now apply keeps_spec). f_equal. apply IH.
      intros r'. rewrite filtered_data_rowwise, filter_In, keeps_spec. reflexivity.
    + rewrite decide_False; [apply IH|].
      * intros r'. rewrite filtered_data_rowwise, filter_In, keeps_spec. reflexivity.
      * intros Hs. apply keeps_spec in Hs. congruence.
  - exact Hin.
  - intros Hall r. rewrite Hin. unfold satisfies, project_matches. tauto.
Qed.

(** ** [groupby] and [sort_values] *)

Section GroupByFacts.

Context {K R : Type}.
Variable cmp : K -> K -> comparison.
Variable lt : K -> K -> Prop.
Context `{!StrictOrder lt}.
Hypothesis cmp_spec : forall a b, CompareSpec (a = b) (lt a b) (lt b a) (cmp a b).
Variable key : R -> option K.

Lemma insert_key_In (k x : K) (ks : list K) :
  In x (insert_key cmp k ks) <-> x = k \/ In x ks.
Proof.
  induction ks as [|k' ks IH]; cbn.
  - intuition.
  - destruct (cmp_spec k k') as [->| |]; cbn; rewrite ?IH; intuition.
Qed.

Lemma insert_key_sorted (k : K) (ks : list K) :
  StronglySorted lt ks -> StronglySorted lt (insert_key cmp k ks).
Proof.
  induction 1 as [|k' ks Hs IH Hall]; cbn.
  - repeat constructor.
  - destruct (cmp_spec k k') as [->|Hlt|Hgt].
    + now constructor.
    + constructor; [now constructor|].
      constructor; [assumption|].
      eapply Forall_impl; [exact Hall|]. intros; now transitivity k'.
    + constructor; [assumption|].
      apply List.Forall_forall. intros x Hx. apply insert_key_In in Hx as [->|Hx].
      * assumption.
      * rewrite List.Forall_forall in Hall. now apply Hall.
Qed.

Lemma group_keys_In (k : K) (rows : list R) :
  In k (group_keys cmp key rows) <-> exists r, In r rows /\ key r = Some k.
Proof.
  unfold group_keys, dropna_values.
  induction rows as [|r rows IH]; cbn.
  - split; [tauto|intros (r & [] & _)].
  - destruct (key r) as [k'|] eqn:Hk; cbn.
    + rewrite insert_key_In, IH. split.
      * intros [->|(r' & Hin & Hr')]; eauto.
      * intros (r' & [<-|Hin] & Hr'); [left; congruence|right; eauto].
    + rewrite IH. split.
      * intros (r' & Hin & Hr'); eauto.
      * intros (r' & [<-|Hin] & Hr'); [congruence|eauto].
Qed.

Lemma group_keys_sorted (rows : list R) :
  StronglySorted lt (group_keys cmp key rows).
Proof.
  unfold group_keys. induction (dropna_values (map key rows)) as [|k ks IH]; cbn.
  - constructor.
  - now apply insert_key_sorted.
Qed.

Lemma in_group_spec (k : K) (r : R) :
  in_group cmp key k r = true <-> key r = Some k.
Proof.
  unfold in_group. destruct (key r) as [k'|]; [|split; discriminate].
  destruct (cmp_spec k' k) as [->|Hlt|Hgt].
  - tauto.
  - split; [discriminate|]. intros [= ->]. now apply irreflexivity in Hlt.
  - split; [discriminate|]. intros [= ->]. now apply irreflexivity in Hgt.
Qed.

Lemma group_rows_In (k : K) (r : R) (rows : list R) :
  In r (group_rows cmp key k rows) <-> In r rows /\ key r = Some k.
Proof. unfold group_rows. now rewrite filter_In, in_group_spec. Qed.

Lemma strongly_sorted_lt_NoDup (ks : list K) : StronglySorted lt ks -> NoDup ks.
Proof.
  induction 1 as [|k ks Hs IH Hall]; constructor; [|assumption].
  intros Hin%list_elem_of_In. rewrite List.Forall_forall in Hall.
  specialize (Hall _ Hin). now apply irreflexivity in Hall.
Qed.

End GroupByFacts.

Section SortValuesFacts.

Context {T : Type}.
Variable before : T -> T -> bool.

Lemma insert_by_Permutation (x : T) (l : list T) :
  Permutation (insert_by before x l) (x :: l).
Proof.
  induction l as [|y l IH]; cbn; [reflexivity|].
  destruct (before x y); [reflexivity|].
  rewrite IH. apply perm_swap.
Qed.

Lemma sort_values_Permutation (l : list T) : Permutation (sort_values before l) l.
Proof.
  induction l as [|x l IH]; cbn; [reflexivity|].
  rewrite insert_by_Permutation. now constructor.
Qed.

(** A table already in order is left as it is. *)
Lemma sort_values_sorted_id (l : list T) :
  Sorted (fun a b => before a b = true) l -> sort_values before l = l.
Proof.
  induction 1 as [|x l Hs IH Hhd]; cbn; [reflexivity|].
  fold (sort_values before l). rewrite IH.
  destruct Hhd as [|y l Hxy]; cbn; [reflexivity|now rewrite Hxy].
Qed.

Hypothesis before_total : forall a b, before a b = true \/ before b a = true.
Hypothesis before_trans :
  forall a b c, before a b = true -> before b c = true -> before a c = true.

Lemma insert_by_sorted (x : T) (l : list T) :
  StronglySorted (fun a b => before a b = true) l ->
  StronglySorted (fun a b => before a b = true) (insert_by before x l).
Proof.
  induction 1 as [|y l Hs IH Hall]; cbn.
  - repeat constructor.
  - destruct (before x y) eqn:Hxy.
    + constructor; [now constructor|].
      constructor; [assumption|].
      eapply Forall_impl; [exact Hall|]. intros z Hz. now apply before_trans with y.
    + constructor; [assumption|].
      rewrite (insert_by_Permutation x l).
      constructor; [|assumption].
      destruct (before_total x y); congruence.
Qed.

Lemma sort_values_sorted (l : list T) :
  StronglySorted (fun a b => before a b = true) (sort_values before l).
Proof.
  induction l as [|x l IH]; cbn; [constructor|now apply insert_by_sorted].
Qed.

End SortValuesFacts.

(** ** Tab 1: the monthly timeline *)

Lemma string_compare_spec (a b : string) :
  CompareSpec (a = b) (String_as_OT.lt a b) (String_as_OT.lt b a)
    (String_as_OT.compare a b).
Proof. exact (String_as_OT.compare_spec a b). Qed.

Lemma month_rows_In (m : string) (r : row) (fd : list row) :
  In r (month_rows m fd) <-> In r fd /\ Year_Month r = Some m.
Proof.
  apply (group_rows_In String_as_OT.compare String_as_OT.lt string_compare_spec).
Qed.

Lemma sorted_keys_rows_in_order {T : Type} (f : string -> T) (name : T -> string)
    (ks : list string) :
  (forall k, name (f k) = k) ->
  StronglySorted String_as_OT.lt ks ->
  Sorted (fun a b => string_leb (name a) (name b) = true) (map f ks).
Proof.
  intros Hname Hs. apply StronglySorted_Sorted in Hs.
  induction Hs as [|k ks Hs IH Hhd]; cbn; constructor; [assumption|].
  destruct Hhd as [|k' ks Hlt]; cbn; constructor.
  rewrite !Hname. unfold string_leb. unfold String_as_OT.lt in Hlt. now rewrite Hlt.
Qed.

(** The second [sort_values] finds the groups already in order. *)
Lemma monthly_sales_groups (fd : list row) :
  monthly_sales fd =
  map (fun k => monthly_agg k (month_rows k fd))
    (group_keys String_as_OT.compare Year_Month fd).
Proof.
  unfold monthly_sales, groupby_agg.
  apply sort_values_sorted_id.
  apply (sorted_keys_rows_in_order
           (fun k => monthly_agg k (month_rows k fd)) ms_Year_Month);
    [reflexivity|].
  apply (group_keys_sorted String_as_OT.compare String_as_OT.lt string_compare_spec).
Qed.

(** What the timeline holds.  For a subset that is not empty it has one row
    per distinct month of the subset, in ascending order of the month; the
    amount of a row is [sum] over the contract amounts of that month's rows
    and its unit count is [count] over their unit ids. *)
Theorem monthly_timeline_by_month (fd : list row) :
  fd <> [] ->
  tab1 fd = Shown (monthly_sales fd) /\
  StronglySorted String_as_OT.lt (map ms_Year_Month (monthly_sales fd)) /\
  (forall m, In m (map ms_Year_Month (monthly_sales fd)) <->
             exists r, In r fd /\ Year_Month r = Some m) /\
  (forall o, In o (monthly_sales fd) ->
     ms_Contract_Amount o =
       sum_skipna (map Contract_Amount (month_rows (ms_Year_Month o) fd)) /\
     ms_Unit_ID o =
       count_notna (map Unit_ID (month_rows (ms_Year_Month o) fd))).
Proof.
  intros Hne.
  assert (Hkeys : map ms_Year_Month (monthly_sales fd) =
                  group_keys String_as_OT.compare Year_Month fd).
  { rewrite monthly_sales_groups, map_map. cbn. apply map_id. }
  split; [|split; [|split]].
  - unfold tab1. destruct fd; [congruence|reflexivity].
  - rewrite Hkeys.
    apply (group_keys_sorted String_as_OT.compare String_as_OT.lt string_compare_spec).
  - intros m. rewrite Hkeys.
    apply (group_keys_In String_as_OT.compare String_as_OT.lt string_compare_spec).
  - intros o Ho. rewrite monthly_sales_groups in Ho.
    apply in_map_iff in Ho as (k & <- & _). split; reflexivity.
Qed.

(** ** The notices on an empty subset *)

(** C4. On an empty filtered subset every tab shows its notice: the monthly
    timeline, the price per m² statistics, the project and monthly price
    tables, and the location table; none of them raises, and the
    re-coercion before them leaves the empty subset empty. *)
Theorem empty_subset_shows_notices (np_sqrt : Q -> option Q) :
  recoerce_m2 [] = [] /\
  tab1 [] = NoData notice_no_data /\
  tab2_statistics [] = NoData notice_no_data_short /\
  tab2_projects [] = NoData notice_no_data /\
  tab3 np_sqrt [] = NoData notice_no_data.
Proof. repeat split. Qed.

(** ** Tab 2: sales by project *)

Lemma project_rows_In (p : string) (r : row) (fd : list row) :
  In r (project_rows p fd) <-> In r fd /\ Project r = p.
Proof.
  unfold project_rows.
  rewrite (group_rows_In String_as_OT.compare String_as_OT.lt string_compare_spec).
  split; intros [H1 H2]; split; congruence.
Qed.

Lemma by_total_sales_desc_total (a b : project_sales_row) :
  by_total_sales_desc a b = true \/ by_total_sales_desc b a = true.
Proof.
  unfold by_total_sales_desc. rewrite !Qle_bool_iff.
  destruct (Qlt_le_dec (pg_Total_Sales (ps_group a)) (pg_Total_Sales (ps_group b)));
    [right; now apply Qlt_le_weak|now left].
Qed.

Lemma by_total_sales_desc_trans (a b c : project_sales_row) :
  by_total_sales_desc a b = true -> by_total_sales_desc b c = true ->
  by_total_sales_desc a c = true.
Proof.
  unfold by_total_sales_desc. rewrite !Qle_bool_iff. intros Hab Hbc.
  exact (Qle_trans _ _ _ Hbc Hab).
Qed.

Lemma strongly_sorted_weaken {T : Type} (R1 R2 : T -> T -> Prop) (l : list T) :
  (forall a b, R1 a b -> R2 a b) -> StronglySorted R1 l -> StronglySorted R2 l.
Proof.
  intros Himp. induction 1 as [|x l Hs IH Hall]; constructor; [assumption|].
  eapply Forall_impl; [exact Hall|]. intros y. apply Himp.
Qed.

Lemma project_sales_Permutation (fd : list row) :
  Permutation (project_sales fd) (map add_price_per_m2 (project_groups fd)).
Proof. apply sort_values_Permutation. Qed.

Lemma project_groups_names (fd : list row) :
  map pg_Project (project_groups fd) =
  group_keys String_as_OT.compare (fun r => Some (Project r)) fd.
Proof. unfold project_groups, groupby_agg. rewrite map_map. apply map_id. Qed.

Lemma mean_skipna_present (g : list row) (f : row -> Q) :
  g <> [] ->
  mean_skipna (map (fun r => Some (f r)) g) =
  Some (Qsum (map f g) / inject_Z (Z.of_nat (length g)))%Q.
Proof.
  intros Hne. unfold mean_skipna, dropna_values.
  assert (H : omap id (map (fun r => Some (f r)) g) = map f g).
  { clear Hne. induction g as [|r g IH]; cbn; [reflexivity|now rewrite IH]. }
  rewrite H. destruct g as [|r g]; [congruence|]. cbn [map].
  now rewrite length_cons, length_map.
Qed.


(** ** Tab 2: price per m² statistics *)

Lemma Qltb_true (a b : Q) : Qltb a b = true <-> (a < b)%Q.
Proof.
  unfold Qltb. rewrite negb_true_iff, <- not_true_iff_false, Qle_bool_iff.
  split; [apply Qnot_le_lt|apply Qlt_not_le].
Qed.

Lemma Qltb_false (a b : Q) : Qltb a b = false <-> (b <= a)%Q.
Proof. unfold Qltb. now rewrite negb_false_iff, Qle_bool_iff. Qed.

Section ArgBest.

Variable better : Q -> Q -> bool.
Variable dominates : Q -> Q -> Prop.
Hypothesis dominates_refl : forall a, dominates a a.
Hypothesis dominates_trans :
  forall a b c, dominates a b -> dominates b c -> dominates a c.
Hypothesis better_true : forall v b, better v b = true -> dominates v b.
Hypothesis better_false : forall v b, better v b = false -> dominates b v.

Lemma argbest_spec (col : list (nat * Q)) : forall best,
  exists v, In (argbest better best col, v) (best :: col) /\
            forall x, In x (best :: col) -> dominates v (snd x).
Proof.
  induction col as [|x col IH]; intros best; cbn [argbest].
  - exists (snd best). split; [left; now destruct best|].
    intros y [<-|[]]. apply dominates_refl.
  - destruct (better (snd x) (snd best)) eqn:Hb.
    + destruct (IH x) as (v & Hin & Hdom). exists v. split.
      * destruct Hin as [Hin|Hin]; [right; now left|right; now right].
      * intros y [<-|Hy]; [|now apply Hdom].
        apply dominates_trans with (snd x); [apply Hdom; now left|].
        now apply better_true.
    + destruct (IH best) as (v & Hin & Hdom). exists v. split.
      * destruct Hin as [Hin|Hin]; [now left|right; now right].
      * intros y [<-|[<-|Hy]].
        -- apply Hdom; now left.
        -- apply dominates_trans with (snd best); [apply Hdom; now left|].
           now apply better_false.
        -- apply Hdom; now right.
Qed.

End ArgBest.

Lemma labelled_m2_In (l : nat) (v : Q) (fd : list row) :
  In (l, v) (labelled_m2 fd) <-> exists r, In r fd /\ index r = l /\ m2 r = Some v.
Proof.
  unfold labelled_m2. induction fd as [|r fd IH]; cbn.
  - split; [tauto|intros (r & [] & _)].
  - destruct (m2 r) as [w|] eqn:Hw; cbn; rewrite IH; split.
    + intros [[= <- <-]|(r' & Hin & H)]; eauto 6.
    + intros (r' & [<-|Hin] & Hi & Hv); [left; congruence|right; eauto].
    + intros (r' & Hin & H); eauto.
    + intros (r' & [<-|Hin] & Hi & Hv); [congruence|eauto].
Qed.

Lemma filter_index_NoDup (f : row -> bool) (fd : list row) :
  NoDup (map index fd) -> NoDup (map index (List.filter f fd)).
Proof.
  induction fd as [|r fd IH]; cbn; [constructor|].
  intros Hnd. apply NoDup_cons in Hnd as [Hnot Hnd].
  destruct (f r); cbn; [|now apply IH].
  apply NoDup_cons. split; [|now apply IH].
  intros Hin. apply Hnot.
  apply list_elem_of_In, in_map_iff in Hin as (r' & Hi & Hr').
  apply filter_In in Hr' as [Hr' _].
  apply list_elem_of_In, in_map_iff. eauto.
Qed.

(** With distinct index labels, [loc] finds the row that bears the label. *)
Lemma loc_unique (r : row) (fd : list row) :
  NoDup (map index fd) -> In r fd -> loc (index r) fd = Return r.
Proof.
  unfold loc. induction fd as [|r' fd IH]; cbn; [tauto|].
  intros Hnd Hin. apply NoDup_cons in Hnd as [Hnot Hnd].
  assert (Hnone : forall x, ~ In x (map index fd) ->
            List.filter (fun r0 => Nat.eqb (index r0) x) fd = []).
  { intros x Hx. clear -Hx. induction fd as [|a fd IH]; cbn; [reflexivity|].
    destruct (Nat.eqb_spec (index a) x) as [He|He].
    - exfalso. apply Hx. left. exact He.
    - apply IH. intros H. apply Hx. now right. }
  destruct Hin as [->|Hin].
  - rewrite Nat.eqb_refl, Hnone; [reflexivity|].
    intros H. apply Hnot. now apply list_elem_of_In.
  - destruct (Nat.eqb_spec (index r') (index r)) as [He|He].
    + exfalso. apply Hnot. rewrite He. apply list_elem_of_In, in_map. exact Hin.
    + now apply IH.
Qed.

Lemma dropna_m2_values (fd : list row) :
  dropna_values (map m2 (dropna_m2 fd)) = dropna_values (map m2 fd).
Proof.
  unfold dropna_values, dropna_m2. induction fd as [|r fd IH]; cbn; [reflexivity|].
  destruct (m2 r) as [v|] eqn:Hv; cbn; rewrite ?Hv; cbn; now rewrite IH.
Qed.

Lemma dropna_m2_In (r : row) (fd : list row) :
  In r (dropna_m2 fd) <-> In r fd /\ exists v, m2 r = Some v.
Proof.
  unfold dropna_m2. rewrite filter_In.
  destruct (m2 r) as [v|]; split; intros [H1 H2]; split; eauto; try discriminate.
  destruct H2 as [v [=]].
Qed.

Lemma dropna_m2_empty (fd : list row) :
  dropna_m2 fd = [] <-> dropna_values (map m2 fd) = [].
Proof.
  unfold dropna_values, dropna_m2. induction fd as [|r fd IH]; cbn; [tauto|].
  destruct (m2 r); cbn; [split; discriminate|exact IH].
Qed.

Lemma recoerce_m2_index (fd : list row) : map index (recoerce_m2 fd) = map index fd.
Proof. unfold recoerce_m2. rewrite map_map. reflexivity. Qed.

(** The subsets the script computes statistics on have distinct index
    labels: the labels of the loaded table are [0 .. n-1], and filtering and
    re-coercion keep the label of every row they keep. *)
Lemma filtered_subset_index_NoDup float_of_string numeric_of_string other_datetime
    (csv : list raw_row) (data : list row) (c : criteria) :
  load_data float_of_string numeric_of_string other_datetime csv = Return data ->
  NoDup (map index (recoerce_m2 (filtered_data data c))).
Proof.
  intros Hload. rewrite recoerce_m2_index, filtered_data_rowwise.
  apply filter_index_NoDup.
  rewrite (load_data_index _ _ _ _ _ Hload). apply NoDup_ListNoDup, List.seq_NoDup.
Qed.

(** C7. With distinct index labels, the statistics of tab 2 are taken over
    the rows whose [m²] is not missing: the highest and the lowest
    transaction are rows of the subset holding the largest and the smallest
    value, and the average is the sum of the values present divided by their
    number.  When no row has a value the tab shows one of its two "no data"
    notices; nothing is raised, so the notice of the [except] branch is not
    the one shown. *)
Theorem price_statistics_over_present_values (fd : list row) :
  NoDup (map index fd) ->
  let values := dropna_values (map m2 fd) in
  match tab2_statistics fd with
  | NoData notice =>
      values = [] /\
      (notice = notice_no_data_short \/ notice = notice_no_valid_m2)
  | Shown stats =>
      values <> [] /\
      In (highest_transaction stats) fd /\
      In (lowest_transaction stats) fd /\
      (exists vmax vmin,
          m2 (highest_transaction stats) = Some vmax /\
          m2 (lowest_transaction stats) = Some vmin /\
          forall r v, In r fd -> m2 r = Some v -> (v <= vmax)%Q /\ (vmin <= v)%Q) /\
      average_price_per_m2 stats =
        Some (Qsum values / inject_Z (Z.of_nat (length values)))%Q
  end.
Proof.
  intros Hnd values. unfold tab2_statistics.
  destruct (empty fd) eqn:He; cbn [negb].
  { split; [|now left]. destruct fd; [reflexivity|discriminate]. }
  destruct (empty (dropna_m2 fd)) eqn:Hve; cbn [negb].
  { split; [|now right].
    apply dropna_m2_empty. destruct (dropna_m2 fd); [reflexivity|discriminate]. }
  assert (Hvalid : dropna_m2 fd <> []) by (destruct (dropna_m2 fd); [discriminate|congruence]).
  assert (Hvnd : NoDup (map index (dropna_m2 fd))) by now apply filter_index_NoDup.
  assert (Hlab : labelled_m2 (dropna_m2 fd) <> []).
  { destruct (dropna_m2 fd) as [|w valid0] eqn:Hd; [congruence|].
    assert (Hw : In w (dropna_m2 fd)) by (rewrite Hd; now left).
    apply dropna_m2_In in Hw as [_ [v Hv]].
    unfold labelled_m2. cbn. rewrite Hv. discriminate. }
  unfold idxmax, idxmin.
  destruct (labelled_m2 (dropna_m2 fd)) as [|x rest] eqn:Hl; [congruence|].
  destruct (argbest_spec (fun v best => Qltb best v) (fun a b => (b <= a)%Q)
              Qle_refl (fun a b c H1 H2 => Qle_trans _ _ _ H2 H1)
              (fun v b H => Qlt_le_weak _ _ (proj1 (Qltb_true b v) H))
              (fun v b H => proj1 (Qltb_false b v) H) rest x)
    as (vmax & Hmaxin & Hmax).
  destruct (argbest_spec (fun v best => Qltb v best) (fun a b => (a <= b)%Q)
              Qle_refl Qle_trans
              (fun v b H => Qlt_le_weak _ _ (proj1 (Qltb_true v b) H))
              (fun v b H => proj1 (Qltb_false v b) H) rest x)
    as (vmin & Hminin & Hmin).
  rewrite <- Hl in Hmaxin, Hminin, Hmax, Hmin.
  apply labelled_m2_In in Hmaxin as (rmax & Hrmax & Himax & Hvmax).
  apply labelled_m2_In in Hminin as (rmin & Hrmin & Himin & Hvmin).
  cbn [rbind].
  rewrite <- Himax, (loc_unique rmax _ Hvnd Hrmax). cbn [rbind].
  rewrite <- Himin, (loc_unique rmin _ Hvnd Hrmin). cbn [rbind].
  cbn [highest_transaction lowest_transaction average_price_per_m2].
  assert (Hvals : values <> []).
  { unfold values. intros Hnil. now apply dropna_m2_empty in Hnil. }
  split; [exact Hvals|].
  split; [now apply dropna_m2_In in Hrmax|].
  split; [now apply dropna_m2_In in Hrmin|].
  split.
  - exists vmax, vmin. repeat split; try assumption.
    + apply (Hmax (index r, v)). apply labelled_m2_In.
      exists r. repeat split; try assumption. apply dropna_m2_In. eauto.
    + apply (Hmin (index r, v)). apply labelled_m2_In.
      exists r. repeat split; try assumption. apply dropna_m2_In. eauto.
  - unfold mean_skipna. rewrite dropna_m2_values. fold values.
    destruct values; [congruence|reflexivity].
Qed.

(** ** The bounds of the price slider *)

Lemma Qmax_list_spec (vs : list Q) : forall best,
  In (Qmax_list best vs) (best :: vs) /\
  forall v, In v (best :: vs) -> (v <= Qmax_list best vs)%Q.
Proof.
  induction vs as [|x vs IH]; intros best; cbn [Qmax_list].
  - split; [now left|]. intros v [<-|[]]. apply Qle_refl.
  - destruct (IH (if Qltb best x then x else best)) as [Hin Hle]. split.
    + destruct Hin as [Hin|Hin]; [|right; now right].
      rewrite <- Hin. destruct (Qltb best x); [right; now left|now left].
    + intros v Hv.
      assert (Hstep : (best <= (if Qltb best x then x else best))%Q /\
                      (x <= (if Qltb best x then x else best))%Q).
      { destruct (Qltb best x) eqn:Hb.
        - split; [apply Qlt_le_weak; now apply Qltb_true|apply Qle_refl].
        - split; [apply Qle_refl|now apply Qltb_false]. }
      destruct Hv as [<-|[<-|Hv]].
      * eapply Qle_trans; [apply Hstep|]. apply Hle. now left.
      * eapply Qle_trans; [apply Hstep|]. apply Hle. now left.
      * apply Hle. now right.
Qed.

Lemma dropna_values_In {A : Type} (v : A) (col : list (option A)) :
  In v (dropna_values col) <-> In (Some v) col.
Proof.
  unfold dropna_values. induction col as [|c col IH]; cbn; [tauto|].
  destruct c as [w|]; cbn; rewrite IH; split.
  - intros [->|H]; auto.
  - intros [[= ->]|H]; auto.
  - auto.
  - intros [[=]|H]; auto.
Qed.

Lemma max_skipna_spec (col : list (option Q)) (mx : Q) :
  max_skipna col = Some mx ->
  In (Some mx) col /\ forall v, In (Some v) col -> (v <= mx)%Q.
Proof.
  unfold max_skipna. destruct (dropna_values col) as [|v vs] eqn:Hd; [discriminate|].
  intros [= <-]. destruct (Qmax_list_spec vs v) as [Hin Hle]. split.
  - apply dropna_values_In. now rewrite Hd.
  - intros w Hw. apply Hle. rewrite <- Hd. now apply dropna_values_In.
Qed.

Lemma Qmin_list_spec (vs : list Q) : forall best,
  In (Qmin_list best vs) (best :: vs) /\
  forall v, In v (best :: vs) -> (Qmin_list best vs <= v)%Q.
Proof.
  induction vs as [|x vs IH]; intros best; cbn [Qmin_list].
  - split; [now left|]. intros v [<-|[]]. apply Qle_refl.
  - destruct (IH (if Qltb x best then x else best)) as [Hin Hle]. split.
    + destruct Hin as [Hin|Hin]; [|right; now right].
      rewrite <- Hin. destruct (Qltb x best); [right; now left|now left].
    + intros v Hv.
      assert (Hstep : ((if Qltb x best then x else best) <= best)%Q /\
                      ((if Qltb x best then x else best) <= x)%Q).
      { destruct (Qltb x best) eqn:Hb.
        - split; [apply Qlt_le_weak; now apply Qltb_true|apply Qle_refl].
        - split; [apply Qle_refl|now apply Qltb_false]. }
      destruct Hv as [<-|[<-|Hv]].
      * eapply Qle_trans; [|apply Hstep]. apply Hle. now left.
      * eapply Qle_trans; [|apply Hstep]. apply Hle. now left.
      * apply Hle. now right.
Qed.

Lemma min_skipna_spec (col : list (option Q)) (mn : Q) :
  min_skipna col = Some mn ->
  In (Some mn) col /\ forall v, In (Some v) col -> (mn <= v)%Q.
Proof.
  unfold min_skipna. destruct (dropna_values col) as [|v vs] eqn:Hd; [discriminate|].
  intros [= <-]. destruct (Qmin_list_spec vs v) as [Hin Hle]. split.
  - apply dropna_values_In. now rewrite Hd.
  - intros w Hw. apply Hle. rewrite <- Hd. now apply dropna_values_In.
Qed.

(** [int] of a float that is not negative does not exceed it, and is
    strictly below it when the float is not whole. *)
Lemma truncation_below (q : Q) :
  (0 <= q)%Q -> Z.rem (Qnum q) (Zpos (Qden q)) <> 0 ->
  (inject_Z (Qnum q ÷ Zpos (Qden q)) < q)%Q.
Proof.
  destruct q as [n d]. unfold Qle, Qlt, inject_Z. cbn. intros Hn Hrem.
  assert (H0 : 0 <= n) by lia.
  pose proof (Z.quot_rem' n (Zpos d)) as Heq.
  pose proof (Z.rem_bound_pos n (Zpos d) H0 ltac:(lia)) as Hb.
  nia.
Qed.

(** C10. The slider bounds are [int(min)] and [int(max)] of the contract
    amounts.  When the largest amount is not negative and not whole, the
    upper bound lies strictly below it, the rows holding the largest amount
    fail the price condition of the filter at the slider's initial range,
    and so the filter does not return the whole table, whatever the other
    criteria are. *)
Theorem truncated_price_bound_excludes_maximum (data : list row) (mx : Q) :
  max_skipna (map Contract_Amount data) = Some mx ->
  (0 <= mx)%Q ->
  Z.rem (Qnum mx) (Zpos (Qden mx)) <> 0 ->
  exists mn lo hi,
    min_skipna (map Contract_Amount data) = Some mn /\
    (forall v, In (Some v) (map Contract_Amount data) -> (mn <= v <= mx)%Q) /\
    min_price data = Return lo /\ max_price data = Return hi /\
    default_price_range data = Return (lo, hi) /\
    lo = Qnum mn ÷ Zpos (Qden mn) /\
    hi = Qnum mx ÷ Zpos (Qden mx) /\
    (inject_Z hi < mx)%Q /\
    (exists r, In r data /\ Contract_Amount r = Some mx) /\
    forall c,
      (forall r, In r data -> Contract_Amount r = Some mx ->
                 ~ In r (filtered_data data (with_price_range c (lo, hi)))) /\
      filtered_data data (with_price_range c (lo, hi)) <> data.
Proof.
  intros Hmax Hpos Hrem.
  destruct (max_skipna_spec _ _ Hmax) as [Hin Hle].
  apply in_map_iff in Hin as (rmax & Hrmax & Hdata).
  assert (Hmin : exists mn, min_skipna (map Contract_Amount data) = Some mn).
  { unfold min_skipna. unfold max_skipna in Hmax.
    destruct (dropna_values (map Contract_Amount data)); [discriminate|eauto]. }
  destruct Hmin as [mn Hmin].
  destruct (min_skipna_spec _ _ Hmin) as [_ Hge].
  exists mn, (Qnum mn ÷ Zpos (Qden mn)), (Qnum mx ÷ Zpos (Qden mx)).
  split; [exact Hmin|].
  split; [intros v Hv; split; [now apply Hge|now apply Hle]|].
  split; [unfold min_price; now rewrite Hmin|].
  split; [unfold max_price; now rewrite Hmax|].
  split; [unfold default_price_range, min_price, max_price;
          now rewrite Hmin, Hmax|].
  split; [reflexivity|]. split; [reflexivity|].
  pose proof (truncation_below mx Hpos Hrem) as Hlt.
  split; [exact Hlt|]. split; [eauto|].
  assert (Hout : forall c r, In r data -> Contract_Amount r = Some mx ->
            ~ In r (filtered_data data
                      (with_price_range c (Qnum mn ÷ Zpos (Qden mn),
                                           Qnum mx ÷ Zpos (Qden mx))))).
  { intros c r Hr Hamt Hkept.
    rewrite filtered_data_rowwise in Hkept. apply filter_In in Hkept as [_ Hk].
    apply keeps_spec in Hk as (_ & Hprice & _).
    unfold in_price_range in Hprice. rewrite Hamt in Hprice. cbn in Hprice.
    destruct Hprice as [_ Hle']. now apply Qle_not_lt in Hle'. }
  intros c. split; [apply Hout|].
  intros Heq. apply (Hout c rmax Hdata Hrmax). rewrite Heq. exact Hdata.
Qed.

(** ** The objects the script writes *)

Lemma assign_new_sole_name (x y : string) (l : nat) (o v : pyobj) (st : store) :
  y <> x -> sole_name x l o st -> sole_name x l o (assign_new y v st).
Proof.
  intros Hne (Henv & Hheap & Halias). unfold sole_name, assign_new. cbn.
  pose proof (lookup_lt_Some _ _ _ Hheap) as Hlt.
  split; [|split].
  - rewrite lookup_insert_ne by assumption. exact Henv.
  - rewrite lookup_app_l by assumption. exact Hheap.
  - intros z Hz. destruct (decide (y = z)) as [<-|Hyz].
    + rewrite lookup_insert_eq. intros [= Heq]. lia.
    + rewrite lookup_insert_ne by assumption. now apply Halias.
Qed.

Lemma setitem_sole_name (x y : string) (l : nat) (o : pyobj)
    (f : pyobj -> pyobj) (st : store) :
  y <> x -> sole_name x l o st -> sole_name x l o (setitem y f st).
Proof.
  intros Hne (Henv & Hheap & Halias). unfold sole_name, setitem.
  destruct (env st !! y) as [ly|] eqn:Hy; [|now repeat split]. cbn.
  split; [exact Henv|]. split; [|exact Halias].
  rewrite list_lookup_alter_ne; [exact Hheap|].
  intros ->. now apply (Halias y).
Qed.

(** A fresh binding is the sole name of its object. *)
Lemma assign_new_binds (y : string) (v : pyobj) (st : store) :
  (forall z l, env st !! z = Some l -> (l < length (heap st))%nat) ->
  sole_name y (length (heap st)) v (assign_new y v st).
Proof.
  intros Hbound. unfold sole_name, assign_new. cbn. split; [|split].
  - apply lookup_insert_eq.
  - rewrite lookup_app_r by lia. now rewrite Nat.sub_diag.
  - intros z Hz. rewrite lookup_insert_ne by congruence.
    intros Hl. apply Hbound in Hl. lia.
Qed.

Lemma setitem_writes (x : string) (l : nat) (o : pyobj) (f : pyobj -> pyobj)
    (st : store) :
  sole_name x l o st -> sole_name x l (f o) (setitem x f st).
Proof.
  intros (Henv & Hheap & Halias). unfold sole_name, setitem. rewrite Henv. cbn.
  split; [exact Henv|]. split; [|exact Halias].
  rewrite list_lookup_alter_eq, Hheap. reflexivity.
Qed.

Lemma frame_of_sole_name (x : string) (l : nat) (rows : list row) (st : store) :
  sole_name x l (DataFrame rows) st -> frame_of x st = rows.
Proof. intros (Henv & Hheap & _). unfold frame_of, read. now rewrite Henv, Hheap. Qed.

Ltac keep_sole_name :=
  repeat first
    [ assumption
    | apply assign_new_sole_name; [discriminate|]
    | apply setitem_sole_name; [discriminate|] ].

Section ScriptFacts.

Variable numeric_of_string : string -> option Q.
Variable np_sqrt : Q -> option Q.

(** The statements of the tabs write neither [data] nor [filtered_data]. *)
Lemma tabs_keep (x : string) (l : nat) (o : pyobj) (st : store) :
  x = "data" \/ x = "filtered_data" ->
  sole_name x l o st ->
  sole_name x l o
    (stmt_tab3 np_sqrt
       (stmt_tab2_projects numeric_of_string
          (stmt_tab2_statistics (stmt_tab1 st)))).
Proof.
  intros Hx H.
  assert (H1 : sole_name x l o (stmt_tab1 st)).
  { unfold stmt_tab1. destruct (empty _); destruct Hx as [-> | ->]; keep_sole_name. }
  assert (H2 : sole_name x l o (stmt_tab2_statistics (stmt_tab1 st))).
  { unfold stmt_tab2_statistics.
    destruct (negb (empty _)); [|assumption].
    cbv zeta. destruct (negb (empty _)).
    - destruct (tab2_statistics _); destruct Hx as [-> | ->]; keep_sole_name.
    - destruct Hx as [-> | ->]; keep_sole_name. }
  assert (H3 : sole_name x l o
                 (stmt_tab2_projects numeric_of_string
                    (stmt_tab2_statistics (stmt_tab1 st)))).
  { unfold stmt_tab2_projects. destruct (empty _); [assumption|].
    cbv zeta. destruct Hx as [-> | ->]; keep_sole_name. }
  unfold stmt_tab3. destruct (empty _); [assumption|].
  cbv zeta. destruct (negb (empty _)); destruct Hx as [-> | ->]; keep_sole_name.
Qed.

(** C9. Running the script leaves the table [data] as it was: the
    variable still names the same object and the object holds the same rows.
    The filtered subset is another object, the one that receives the
    re-coerced [m²] column, and the tables of the tabs are built from it. *)
Theorem script_leaves_data_unchanged (c : criteria) (st : store) (l : nat)
    (data : list row) :
  well_bound st ->
  sole_name "data" l (DataFrame data) st ->
  let st' := run_script numeric_of_string np_sqrt c st in
  sole_name "data" l (DataFrame data) st' /\
  frame_of "data" st' = data /\
  exists l', l' <> l /\
    sole_name "filtered_data" l'
      (DataFrame (recoerce_m2 (filtered_data data c))) st'.
Proof.
  intros Hwb Hdata st'.
  assert (Hf : sole_name "filtered_data" (length (heap st))
                 (DataFrame (filtered_data data c)) (stmt_filter c st)).
  { unfold stmt_filter. rewrite (frame_of_sole_name _ _ _ _ Hdata).
    now apply assign_new_binds. }
  assert (Hd1 : sole_name "data" l (DataFrame data) (stmt_filter c st)).
  { unfold stmt_filter. keep_sole_name. }
  assert (Hd2 : sole_name "data" l (DataFrame data)
                  (stmt_recoerce (stmt_filter c st))).
  { unfold stmt_recoerce. keep_sole_name. }
  assert (Hf2 : sole_name "filtered_data" (length (heap st))
                  (DataFrame (recoerce_m2 (filtered_data data c)))
                  (stmt_recoerce (stmt_filter c st))).
  { unfold stmt_recoerce.
    apply (setitem_writes _ _ _ (on_frame recoerce_m2) _ Hf). }
  assert (Hd3 : sole_name "data" l (DataFrame data) st').
  { apply tabs_keep; [now left|exact Hd2]. }
  split; [exact Hd3|]. split; [now apply (frame_of_sole_name _ l)|].
  exists (length (heap st)). split.
  - destruct Hdata as (_ & Hheap & _). apply lookup_lt_Some in Hheap. lia.
  - apply tabs_keep; [now right|exact Hf2].
Qed.

End ScriptFacts.

(** * The properties on the sample data *)

Lemma sample_table_loaded : sample_load sample_csv = Return sample_table.
Proof. reflexivity. Qed.

Lemma contract_date_parsed_day_first_sample :
  exists r,
    sample_table !! 0%nat = Some r /\
    Contract_Date r = Some (mkdate 2025 4 3) /\
    Year_Month r = Some "2025-04".
Proof.
  apply (contract_date_parsed_day_first decimal_float decimal_of_string
           strict_datetime sample_csv sample_table 0
           (raw_sale "U1" "Aphrodite" "03/04/2025" (Text "250,000") (Text "3,100.50"))
           3 4 2025).
  - reflexivity.
  - reflexivity.
  - reflexivity.
  - reflexivity.
  - vm_compute. lia.
Defined.



(** Project A and a price range of 50 to 200 keep the first row only. *)
Lemma filter_returns_conjunction_sample :
  filtered_data sample_projects sample_criteria =
    [ sale 0 (Some "U1") "A" (mkdate 2024 1 5) (Some (inject_Z 100)) None 0%Q ] /\
  filtered_data sample_projects sample_criteria =
    filter (satisfies sample_criteria) sample_projects.
Proof.
  split; [reflexivity|].
  apply (proj1 (filter_returns_conjunction sample_projects sample_criteria)).
Defined.

Lemma monthly_sales_sample :
  monthly_sales sample_subset =
  [ {| ms_Year_Month := "2024-01"; ms_Contract_Amount := inject_Z 300;
       ms_Unit_ID := 2 |};
    {| ms_Year_Month := "2024-02"; ms_Contract_Amount := inject_Z 50;
       ms_Unit_ID := 1 |} ].
Proof. reflexivity. Qed.

Lemma monthly_timeline_by_month_sample :
  sample_subset <> [] /\
  tab1 sample_subset = Shown (monthly_sales sample_subset) /\
  StronglySorted String_as_OT.lt (map ms_Year_Month (monthly_sales sample_subset)) /\
  (forall m, In m (map ms_Year_Month (monthly_sales sample_subset)) <->
             exists r, In r sample_subset /\ Year_Month r = Some m) /\
  (forall o, In o (monthly_sales sample_subset) ->
     ms_Contract_Amount o =
       sum_skipna (map Contract_Amount (month_rows (ms_Year_Month o) sample_subset)) /\
     ms_Unit_ID o =
       count_notna (map Unit_ID (month_rows (ms_Year_Month o) sample_subset))).
Proof.
  split; [discriminate|].
  apply (monthly_timeline_by_month sample_subset). discriminate.
Defined.

(** C5. The timeline at a subset whose month 2024-01 has two rows, the
    first without a unit id: the month's amount is the sum over both rows,
    300, but its unit count is 1, not the 2 rows of the month; the project
    table counts both rows as units sold. *)
Theorem monthly_unit_count_misses_row_without_unit_id :
  monthly_sales sample_subset_missing_unit =
    [ {| ms_Year_Month := "2024-01"; ms_Contract_Amount := inject_Z 300;
         ms_Unit_ID := 1 |} ] /\
  length (month_rows "2024-01" sample_subset_missing_unit) = 2%nat /\
  sum_skipna (map Contract_Amount (month_rows "2024-01" sample_subset_missing_unit))
    = inject_Z 300 /\
  map (fun o => (ps_Project o, pg_Units_Sold (ps_group o)))
    (project_sales sample_subset_missing_unit) = [ ("A", 2%nat) ].
Proof. repeat split. Qed.

(** Project A has a mean covered area of zero: its price per m² is NaN,
    and project B is there with 50 / 25. *)
Lemma project_sales_sample :
  map (fun o => (ps_Project o, ps_Total_Sales o, ps_Price_per_m2 o))
    (project_sales sample_subset) =
  [ ("A", inject_Z 300, NaN); ("B", inject_Z 50, Finite (50 # 25)%Q) ].
Proof. reflexivity. Qed.


(** Areas 100, missing, 300: the average is 400 / 2. *)
Lemma price_statistics_sample :
  match tab2_statistics sample_subset with
  | Shown stats =>
      index (highest_transaction stats) = 2%nat /\
      index (lowest_transaction stats) = 0%nat /\
      exists avg, average_price_per_m2 stats = Some avg /\ (avg == inject_Z 200)%Q
  | NoData _ => False
  end.
Proof. cbn. repeat split. eexists. split; reflexivity. Qed.

Lemma sample_subset_index_NoDup : NoDup (map index sample_subset).
Proof. apply (bool_decide_unpack _). vm_compute. exact I. Defined.

Lemma price_statistics_over_present_values_sample :
  let values := dropna_values (map m2 sample_subset) in
  match tab2_statistics sample_subset with
  | NoData notice =>
      values = [] /\
      (notice = notice_no_data_short \/ notice = notice_no_valid_m2)
  | Shown stats =>
      values <> [] /\
      In (highest_transaction stats) sample_subset /\
      In (lowest_transaction stats) sample_subset /\
      (exists vmax vmin,
          m2 (highest_transaction stats) = Some vmax /\
          m2 (lowest_transaction stats) = Some vmin /\
          forall r v, In r sample_subset -> m2 r = Some v ->
                      (v <= vmax)%Q /\ (vmin <= v)%Q) /\
      average_price_per_m2 stats =
        Some (Qsum values / inject_Z (Z.of_nat (length values)))%Q
  end.
Proof.
  apply (price_statistics_over_present_values sample_subset).
  exact sample_subset_index_NoDup.
Defined.

Lemma sample_store_well_bound : well_bound sample_store.
Proof.
  intros z l Hz. unfold sample_store in Hz. cbn in Hz.
  apply lookup_singleton_Some in Hz as [_ <-]. cbn. lia.
Defined.

Lemma sample_store_data :
  sole_name "data" 0 (DataFrame sample_subset) sample_store.
Proof.
  unfold sole_name, sample_store. cbn. split; [|split].
  - apply lookup_singleton_eq.
  - reflexivity.
  - intros y Hy. rewrite lookup_singleton_ne by congruence. discriminate.
Defined.

Lemma script_leaves_data_unchanged_sample :
  let st' := run_script decimal_of_string whole_sqrt sample_criteria sample_store in
  sole_name "data" 0 (DataFrame sample_subset) st' /\
  frame_of "data" st' = sample_subset /\
  exists l', l' <> 0%nat /\
    sole_name "filtered_data" l'
      (DataFrame (recoerce_m2 (filtered_data sample_subset sample_criteria))) st'.
Proof.
  apply (script_leaves_data_unchanged decimal_of_string whole_sqrt
           sample_criteria sample_store 0 sample_subset).
  - exact sample_store_well_bound.
  - exact sample_store_data.
Defined.

(** The largest amount is 200.5; the slider starts at (100, 200) and the
    row of 200.5 is filtered out. *)
Lemma sample_fractional_bounds :
  min_price sample_fractional = Return 100 /\
  max_price sample_fractional = Return 200 /\
  default_price_range sample_fractional = Return (100, 200).
Proof. repeat split. Qed.

Lemma truncated_price_bound_excludes_maximum_sample :
  exists mn lo hi,
    min_skipna (map Contract_Amount sample_fractional) = Some mn /\
    (forall v, In (Some v) (map Contract_Amount sample_fractional) ->
               (mn <= v <= 401 # 2)%Q) /\
    min_price sample_fractional = Return lo /\
    max_price sample_fractional = Return hi /\
    default_price_range sample_fractional = Return (lo, hi) /\
    lo = Qnum mn ÷ Zpos (Qden mn) /\
    hi = Qnum (401 # 2) ÷ Zpos (Qden (401 # 2)) /\
    (inject_Z hi < 401 # 2)%Q /\
    (exists r, In r sample_fractional /\ Contract_Amount r = Some (401 # 2)%Q) /\
    forall c,
      (forall r, In r sample_fractional -> Contract_Amount r = Some (401 # 2)%Q ->
                 ~ In r (filtered_data sample_fractional (with_price_range c (lo, hi)))) /\
      filtered_data sample_fractional (with_price_range c (lo, hi)) <> sample_fractional.
Proof.
  apply (truncated_price_bound_excludes_maximum sample_fractional (401 # 2)%Q).
  - reflexivity.
  - unfold Qle. cbn. lia.
  - cbn. lia.
Defined.

(** * Further properties of the script *)

(** ** The loader *)

Lemma column_convert_returns_each {A B : Type} (f : A -> result B) col out a :
  column_convert f col = Return out -> In a col -> ~ raises (f a).
Proof.
  intros H Hin Hr. apply (column_convert_raises f col a Hin) in Hr.
  rewrite H in Hr. exact Hr.
Qed.

Lemma not_raises_returns {A : Type} (m : result A) :
  ~ raises m -> exists a, m = Return a.
Proof. destruct m as [a|e]; [eauto|intros H; destruct H; exact I]. Qed.

Lemma str_accessor_object col :
  is_object_dtype col = true -> str_accessor col = Return col.
Proof. unfold str_accessor. now intros ->. Qed.

Section LoaderMore.

Variable float_of_string : string -> option (option Q).
Variable numeric_of_string : string -> option Q.
Variable other_datetime : string -> result (option date).

Abbreviation load_ := (load_data float_of_string numeric_of_string other_datetime).

(** X1. [load_data] returns a table exactly for the files in which every date
    cell can be converted, the [m²] and [Contract Amount] columns were read
    as text, and every contract amount text is a number once the commas are
    removed. *)
Theorem load_returns_iff_loadable (csv : list raw_row) :
  (exists data, load_ csv = Return data) <->
  loadable float_of_string other_datetime csv.
Proof.
  split.
  - intros [data H]. unfold load_data in H.
    destruct (column_convert _ (map raw_Contract_Date csv)) as [dates|] eqn:Hd;
      cbn in H; [|discriminate].
    unfold str_accessor in H.
    destruct (is_object_dtype (map raw_m2 csv)) eqn:Hm; cbn in H; [|discriminate].
    destruct (is_object_dtype (map raw_Contract_Amount csv)) eqn:Ha;
      cbn in H; [|discriminate].
    destruct (column_convert _ (map str_replace_commas _)) as [amounts|] eqn:Hp;
      cbn in H; [|discriminate].
    unfold loadable. split; [|split; [exact Hm|split; [exact Ha|]]].
    + intros raw Hin.
      apply (column_convert_returns_each _ _ _ _ Hd). now apply in_map.
    + intros raw s Hin Hcell Hnone.
      apply (column_convert_returns_each _ _ _
               (str_replace_commas (raw_Contract_Amount raw)) Hp).
      * rewrite map_map. now apply (in_map (fun r => str_replace_commas
                                              (raw_Contract_Amount r))).
      * rewrite Hcell. cbn. now rewrite Hnone.
  - intros (Hdates & Hm & Ha & Hamounts). unfold load_data.
    destruct (column_convert_total (to_datetime_dayfirst other_datetime)
                (map raw_Contract_Date csv)) as [dates ->].
    { intros a Hin. apply in_map_iff in Hin as (raw & <- & Hin).
      apply not_raises_returns. now apply Hdates. }
    cbn. rewrite (str_accessor_object _ Hm), (str_accessor_object _ Ha). cbn.
    destruct (column_convert_total (astype_float float_of_string)
                (map str_replace_commas (map raw_Contract_Amount csv)))
      as [amounts ->].
    { intros a Hin. rewrite map_map in Hin.
      apply in_map_iff in Hin as (raw & <- & Hin).
      destruct (raw_Contract_Amount raw) as [|s|q] eqn:Hcell; cbn; eauto.
      destruct (float_of_string (remove_commas s)) eqn:Hf; [eauto|].
      exfalso. now apply (Hamounts raw s). }
    cbn. eauto.
Qed.

(** X2. A file with rows whose [Contract Amount] column holds no text (numbers
    written without thousands separators, or nothing) cannot be loaded: the
    column is numeric and has no [.str]; the same goes for [m²]. *)
Theorem numeric_column_aborts_load (csv : list raw_row) :
  csv <> [] ->
  (forall raw, In raw csv -> is_text (raw_Contract_Amount raw) = false) \/
  (forall raw, In raw csv -> is_text (raw_m2 raw) = false) ->
  raises (load_ csv).
Proof.
  intros Hne Hnum.
  assert (Hcol : forall (f : raw_row -> cell),
             (forall raw, In raw csv -> is_text (f raw) = false) ->
             is_object_dtype (map f csv) = false).
  { intros f Hf. destruct csv as [|r0 rest]; [congruence|].
    unfold is_object_dtype. cbn [map].
    apply not_true_iff_false. intros Hex.
    apply existsb_exists in Hex as (c & Hin & Hc).
    apply (in_map_iff f (r0 :: rest) c) in Hin as (raw & <- & Hin).
    rewrite (Hf raw Hin) in Hc. discriminate. }
  unfold load_data.
  destruct (column_convert _ (map raw_Contract_Date csv)); cbn; [|exact I].
  unfold str_accessor.
  destruct Hnum as [Ha|Hm].
  - destruct (is_object_dtype (map raw_m2 csv)); cbn; [|exact I].
    rewrite (Hcol raw_Contract_Amount Ha). exact I.
  - rewrite (Hcol raw_m2 Hm). exact I.
Qed.

(** X3. A loaded table has the rows of the file, one for one and in order,
    labelled 0, 1, ...; the columns the loader does not convert are carried
    over, a missing covered area becomes 0, and [Year-Month] is the text of
    the converted date. *)
Theorem loaded_rows_follow_file (csv : list raw_row) (data : list row) :
  load_ csv = Return data ->
  length data = length csv /\
  forall i raw, csv !! i = Some raw ->
    exists r,
      data !! i = Some r /\ index r = i /\
      Unit_ID r = raw_Unit_ID raw /\ Project r = raw_Project raw /\
      Bedrooms r = raw_Bedrooms raw /\
      Market_Segment r = raw_Market_Segment raw /\
      Latitude r = raw_Latitude raw /\ Longitude r = raw_Longitude raw /\
      Covered_Area r = fillna0 (raw_Covered_Area raw) /\
      Covered_Veranda r = fillna0 (raw_Covered_Veranda raw) /\
      Total_Covered r = fillna0 (raw_Total_Covered raw) /\
      Year_Month r = option_map strftime_Ym (Contract_Date r).
Proof.
  intros Hload. split; [now apply (load_data_length _ _ _ _ _ Hload)|].
  intros i raw Hi.
  destruct (load_data_row _ _ _ _ _ _ _ Hload Hi) as (d & p & _ & _ & Hrow).
  eexists. split; [exact Hrow|]. cbn. repeat split.
Qed.

End LoaderMore.

(** ** Dates and their text *)

Lemma digit_compare (a b : nat) :
  Ascii_as_OT.compare (ascii_of_digit a) (ascii_of_digit b) =
  Nat.compare (a mod 10) (b mod 10).
Proof.
  unfold ascii_of_digit.
  assert (Ha : (a mod 10 < 10)%nat) by (apply Nat.mod_upper_bound; lia).
  assert (Hb : (b mod 10 < 10)%nat) by (apply Nat.mod_upper_bound; lia).
  generalize dependent (a mod 10)%nat. generalize dependent (b mod 10)%nat.
  intros y Hy x Hx.
  do 10 (destruct x as [|x]; [do 10 (destruct y as [|y]; [reflexivity|]); lia|]).
  lia.
Qed.

(** X5. The [Year-Month] texts compare as the months they name: sorting by the
    text, as the timeline does, is sorting by year and month. *)
Theorem year_month_text_order (a b : date) :
  (year a < 100 * 100)%nat -> (year b < 100 * 100)%nat ->
  (month a < 100)%nat -> (month b < 100)%nat ->
  String_as_OT.compare (strftime_Ym a) (strftime_Ym b) = year_month_compare a b.
Proof.
  intros Hya Hyb Hma Hmb.
  unfold strftime_Ym, year_month_compare, pad4, pad2. cbv [String.append].
  cbn [String_as_OT.compare]. rewrite !digit_compare.
  change (Ascii_as_OT.compare "-" "-") with Eq. cbv iota.
  repeat match goal with
         | |- context [Nat.compare ?x ?y] => destruct (Nat.compare_spec x y)
         end; try reflexivity; exfalso; lia_divmod.
Qed.

(** ** Stripping the thousands separators *)

Lemma remove_commas_app (a b : string) :
  remove_commas (a ++ b) = (remove_commas a ++ remove_commas b)%string.
Proof.
  induction a as [|c a IH]; [reflexivity|].
  change (String c a ++ b)%string with (String c (a ++ b)%string).
  cbn [remove_commas]. rewrite IH. now destruct (Ascii.eqb c ",").
Qed.

(** X6. [str.replace(',', '')] leaves no comma, wherever the commas were; it
    changes nothing in a text without commas, so applying it twice is
    applying it once, and it works piece by piece. *)
Theorem remove_commas_leaves_no_comma (s : string) :
  ~ In ","%char (list_ascii_of_string (remove_commas s)) /\
  (~ In ","%char (list_ascii_of_string s) -> remove_commas s = s) /\
  remove_commas (remove_commas s) = remove_commas s /\
  forall t, remove_commas (s ++ "," ++ t) = remove_commas (s ++ t).
Proof.
  assert (Hnone : ~ In ","%char (list_ascii_of_string (remove_commas s))).
  { induction s as [|c s IH]; cbn; [tauto|].
    destruct (Ascii.eqb_spec c ",") as [->|Hne]; [exact IH|].
    cbn. intros [->|H]; [congruence|now apply IH]. }
  assert (Hid : forall u, ~ In ","%char (list_ascii_of_string u) ->
                          remove_commas u = u).
  { induction u as [|c u IH]; cbn; [reflexivity|]. intros Hu.
    destruct (Ascii.eqb_spec c ",") as [->|Hne]; [exfalso; apply Hu; now left|].
    rewrite IH; [reflexivity|]. intros H. apply Hu. now right. }
  split; [exact Hnone|]. split; [apply Hid|]. split; [now apply Hid|].
  intros t. rewrite !remove_commas_app. reflexivity.
Qed.

(** ** The filter, further *)

Lemma filter_filter_same {A : Type} (f : A -> bool) (l : list A) :
  List.filter f (List.filter f l) = List.filter f l.
Proof.
  induction l as [|x l IH]; cbn; [reflexivity|].
  destruct (f x) eqn:Hx; cbn; rewrite ?Hx, IH; reflexivity.
Qed.

Lemma filter_sublist {A : Type} (f : A -> bool) (l : list A) :
  sublist (List.filter f l) l.
Proof.
  induction l as [|x l IH]; cbn; [constructor|].
  destruct (f x); now constructor.
Qed.

(** X7. The filtered subset is made of rows of the table, in the order of the
    table and each at most as often as there; filtering it again by the same
    criteria changes nothing, and two filters give the same subset in either
    order. *)
Theorem filter_keeps_order_and_is_idempotent (data : list row) (c c' : criteria) :
  sublist (filtered_data data c) data /\
  filtered_data (filtered_data data c) c = filtered_data data c /\
  filtered_data (filtered_data data c) c' = filtered_data (filtered_data data c') c.
Proof.
  rewrite !filtered_data_rowwise. split; [apply filter_sublist|].
  split; [apply filter_filter_same|].
  induction data as [|r data IH]; cbn; [reflexivity|].
  destruct (keeps c r) eqn:Hc, (keeps c' r) eqn:Hc'; cbn;
    rewrite ?Hc, ?Hc', IH; reflexivity.
Qed.

(** X8. A row without a contract date or without a contract amount is in no
    filtered subset, whatever the criteria; and once a number of bedrooms is
    chosen, neither is a row without bedrooms. *)
Theorem filtered_rows_have_date_and_amount (data : list row) (c : criteria)
    (r : row) :
  In r (filtered_data data c) ->
  (exists d, Contract_Date r = Some d) /\
  (exists q, Contract_Amount r = Some q) /\
  (selected_bedrooms c <> CatText all_sentinel -> Bedrooms r <> None).
Proof.
  rewrite filtered_data_rowwise, filter_In, keeps_spec.
  intros (_ & Hdate & Hprice & _ & Hbed & _).
  unfold in_date_range, in_price_range, bedrooms_match in *.
  destruct (Contract_Date r) as [d|]; [|destruct Hdate].
  destruct (Contract_Amount r) as [q|]; [|destruct Hprice].
  repeat split; eauto.
  intros Hsel Hnone. destruct Hbed as [H|H]; congruence.
Qed.

(** X9. Choosing a project narrows the subset obtained with "All" to the rows
    of that project. *)
Theorem choosing_project_narrows_all (data : list row) (c : criteria) :
  selected_project c <> all_sentinel ->
  filtered_data data c =
  List.filter (fun r => String.eqb (Project r) (selected_project c))
    (filtered_data data (with_project c all_sentinel)).
Proof.
  intros Hsel. rewrite !filtered_data_rowwise.
  induction data as [|r data IH]; cbn [List.filter]; [reflexivity|].
  assert (Hk : keeps c r =
               keeps (with_project c all_sentinel) r
               && String.eqb (Project r) (selected_project c)).
  { unfold keeps, with_project. cbn.
    apply String.eqb_neq in Hsel. rewrite Hsel. cbn [orb].
    destruct (date_ge_scalar _ _), (date_le_scalar _ _), (float_ge_int _ _),
      (float_le_int _ _), (String.eqb (Project r) _),
      (category_eqb _ _ || category_eq_scalar _ _),
      (String.eqb (selected_segment c) all_sentinel || _); reflexivity. }
  rewrite Hk.
  destruct (keeps (with_project c all_sentinel) r); cbn [andb List.filter].
  - destruct (String.eqb (Project r) (selected_project c)); now rewrite IH.
  - exact IH.
Qed.

(** ** The bounds of the price slider, further *)

Lemma dropna_values_nil {A : Type} (col : list (option A)) :
  dropna_values col = [] <-> forall c, In c col -> c = None.
Proof.
  unfold dropna_values. induction col as [|c col IH]; cbn.
  - split; [intros _ c []|reflexivity].
  - destruct c as [v|]; cbn.
    + split; [discriminate|]. intros H. specialize (H (Some v) (or_introl eq_refl)).
      discriminate.
    + rewrite IH. split.
      * intros H c [<-|Hc]; auto.
      * intros H c Hc. apply H. now right.
Qed.

Lemma floor_monotone (n1 d1 n2 d2 : Z) :
  0 < d1 -> 0 < d2 -> n1 * d2 <= n2 * d1 -> n1 / d1 <= n2 / d2.
Proof.
  intros H1 H2 H. apply Z.div_le_lower_bound; [assumption|].
  pose proof (Z.mul_div_le n1 d1 H1) as Hq.
  apply (Z.mul_le_mono_pos_l _ _ d1 H1).
  transitivity (n1 * d2); [|lia].
  replace (d1 * (d2 * (n1 / d1))) with (d2 * (d1 * (n1 / d1))) by ring.
  rewrite (Z.mul_comm n1 d2). apply Z.mul_le_mono_nonneg_l; lia.
Qed.

Lemma quot_monotone (n1 d1 n2 d2 : Z) :
  0 < d1 -> 0 < d2 -> n1 * d2 <= n2 * d1 -> n1 ÷ d1 <= n2 ÷ d2.
Proof.
  intros H1 H2 H.
  destruct (Z.le_gt_cases 0 n1) as [P1|N1], (Z.le_gt_cases 0 n2) as [P2|N2].
  - rewrite !Z.quot_div_nonneg by lia. now apply floor_monotone.
  - nia.
  - pose proof (Z.quot_pos n2 d2 P2 H2).
    assert (n1 ÷ d1 <= 0).
    { replace n1 with (- - n1) by lia. rewrite (Z.quot_opp_l (- n1) d1) by lia.
      assert (Hn : 0 <= - n1) by lia.
      pose proof (Z.quot_pos (- n1) d1 Hn H1). lia. }
    lia.
  - replace n1 with (- - n1) by lia. replace n2 with (- - n2) by lia.
    rewrite (Z.quot_opp_l (- n1) d1), (Z.quot_opp_l (- n2) d2) by lia.
    rewrite !Z.quot_div_nonneg by lia.
    apply -> Z.opp_le_mono. apply floor_monotone; lia.
Qed.

(** Truncation toward zero is monotone. *)
Lemma truncation_monotone (a b : Q) :
  (a <= b)%Q -> Qnum a ÷ Zpos (Qden a) <= Qnum b ÷ Zpos (Qden b).
Proof.
  destruct a as [n1 d1], b as [n2 d2]. unfold Qle. cbn. intros H.
  apply quot_monotone; lia.
Qed.

(** X10. The slider cannot be set up on a table without any contract amount (an
    empty table among them): [int] of the NaN minimum raises.  With an
    amount in the table the bounds exist and the lower does not exceed the
    upper. *)
Theorem price_slider_bounds_exist_iff_some_amount (data : list row) :
  (raises (default_price_range data) <->
   forall r, In r data -> Contract_Amount r = None) /\
  (forall lo hi, default_price_range data = Return (lo, hi) -> lo <= hi).
Proof.
  unfold default_price_range, min_price, max_price, min_skipna, max_skipna.
  destruct (dropna_values (map Contract_Amount data)) as [|v vs] eqn:Hd.
  - cbn. split; [|discriminate]. split; [|tauto]. intros _ r Hr.
    apply (proj1 (dropna_values_nil _) Hd). now apply in_map.
  - cbn. split.
    + split; [tauto|]. intros Hall.
      assert (Hnil : dropna_values (map Contract_Amount data) = []).
      { apply dropna_values_nil. intros c Hc.
        apply in_map_iff in Hc as (r & <- & Hr). now apply Hall. }
      congruence.
    + intros lo hi [= <- <-]. apply truncation_monotone.
      destruct (Qmin_list_spec vs v) as [Hin Hle].
      destruct (Qmax_list_spec vs v) as [Hin' Hle'].
      eapply Qle_trans; [apply Hle; now left|apply Hle'; now left].
Qed.

Lemma truncation_whole (q : Q) :
  Z.rem (Qnum q) (Zpos (Qden q)) = 0 ->
  (inject_Z (Qnum q ÷ Zpos (Qden q)) == q)%Q.
Proof.
  destruct q as [n d]. unfold Qeq, inject_Z. cbn. intros Hrem.
  pose proof (Z.quot_rem' n (Zpos d)) as Heq. nia.
Qed.

Lemma truncation_not_above (q : Q) :
  (0 <= q)%Q -> (inject_Z (Qnum q ÷ Zpos (Qden q)) <= q)%Q.
Proof.
  destruct q as [n d]. unfold Qle, inject_Z. cbn. intros Hn.
  assert (H0 : 0 <= n) by lia.
  pose proof (Z.quot_rem' n (Zpos d)) as Heq.
  pose proof (Z.rem_bound_pos n (Zpos d) H0 ltac:(lia)) as Hb.
  nia.
Qed.

(** X11. When no amount is negative and the largest amount is a whole number,
    the slider's initial range lets every row with an amount through the
    price condition of the filter. *)
Theorem whole_maximum_keeps_every_amount (data : list row) (mx : Q)
    (lo hi : Z) (c : criteria) :
  default_price_range data = Return (lo, hi) ->
  max_skipna (map Contract_Amount data) = Some mx ->
  Z.rem (Qnum mx) (Zpos (Qden mx)) = 0 ->
  (forall r q, In r data -> Contract_Amount r = Some q -> (0 <= q)%Q) ->
  forall r, In r data -> Contract_Amount r <> None ->
            in_price_range (with_price_range c (lo, hi)) r.
Proof.
  intros Hrange Hmax Hwhole Hpos r Hr Hamt.
  unfold default_price_range, min_price, max_price in Hrange. rewrite Hmax in Hrange.
  destruct (min_skipna (map Contract_Amount data)) as [mn|] eqn:Hmin;
    cbn in Hrange; [|discriminate].
  injection Hrange as <- <-.
  destruct (max_skipna_spec _ _ Hmax) as [_ Hle].
  destruct (min_skipna_spec _ _ Hmin) as [Hmn Hge].
  apply in_map_iff in Hmn as (rmn & Hrmn & Hinmn).
  unfold in_price_range. cbn.
  destruct (Contract_Amount r) as [q|] eqn:Hq; [|congruence].
  assert (Hcol : In (Some q) (map Contract_Amount data)).
  { apply in_map_iff. eauto. }
  split.
  - eapply Qle_trans; [apply truncation_not_above; now apply (Hpos rmn)|].
    now apply Hge.
  - rewrite (truncation_whole mx Hwhole). now apply Hle.
Qed.

(** ** The date bounds of the sidebar *)

Lemma date_ltb_spec (a b : date) : date_ltb a b = true <-> ~ date_le b a.
Proof.
  unfold date_ltb, date_compare, date_le.
  destruct (Nat.compare_spec (year a) (year b));
    destruct (Nat.compare_spec (month a) (month b));
    destruct (Nat.compare_spec (day a) (day b));
    split; intros; try discriminate; try reflexivity; lia.
Qed.

Lemma date_ltb_false (a b : date) : date_ltb a b = false <-> date_le b a.
Proof.
  unfold date_ltb, date_compare, date_le.
  destruct (Nat.compare_spec (year a) (year b));
    destruct (Nat.compare_spec (month a) (month b));
    destruct (Nat.compare_spec (day a) (day b));
    split; intros; try discriminate; try reflexivity; lia.
Qed.

Lemma date_le_refl (a : date) : date_le a a.
Proof. unfold date_le. lia. Qed.

Lemma date_le_trans (a b c : date) : date_le a b -> date_le b c -> date_le a c.
Proof. unfold date_le. lia. Qed.

Lemma date_le_total (a b : date) : date_le a b \/ date_le b a.
Proof. unfold date_le. lia. Qed.

Lemma date_min_list_spec (ds : list date) : forall best,
  In (date_min_list best ds) (best :: ds) /\
  forall d, In d (best :: ds) -> date_le (date_min_list best ds) d.
Proof.
  induction ds as [|x ds IH]; intros best; cbn [date_min_list].
  - split; [now left|]. intros d [<-|[]]. apply date_le_refl.
  - destruct (IH (if date_ltb x best then x else best)) as [Hin Hle]. split.
    + destruct Hin as [Hin|Hin]; [|right; now right].
      rewrite <- Hin. destruct (date_ltb x best); [right; now left|now left].
    + assert (Hstep : date_le (if date_ltb x best then x else best) best /\
                      date_le (if date_ltb x best then x else best) x).
      { destruct (date_ltb x best) eqn:Hb.
        - apply date_ltb_spec in Hb. split; [|apply date_le_refl].
          destruct (date_le_total x best); tauto.
        - split; [apply date_le_refl|]. now apply date_ltb_false. }
      intros d [<-|[<-|Hd]].
      * eapply date_le_trans; [apply Hle; now left|apply Hstep].
      * eapply date_le_trans; [apply Hle; now left|apply Hstep].
      * apply Hle. now right.
Qed.

Lemma date_max_list_spec (ds : list date) : forall best,
  In (date_max_list best ds) (best :: ds) /\
  forall d, In d (best :: ds) -> date_le d (date_max_list best ds).
Proof.
  induction ds as [|x ds IH]; intros best; cbn [date_max_list].
  - split; [now left|]. intros d [<-|[]]. apply date_le_refl.
  - destruct (IH (if date_ltb best x then x else best)) as [Hin Hle]. split.
    + destruct Hin as [Hin|Hin]; [|right; now right].
      rewrite <- Hin. destruct (date_ltb best x); [right; now left|now left].
    + assert (Hstep : date_le best (if date_ltb best x then x else best) /\
                      date_le x (if date_ltb best x then x else best)).
      { destruct (date_ltb best x) eqn:Hb.
        - apply date_ltb_spec in Hb. split; [|apply date_le_refl].
          destruct (date_le_total best x); tauto.
        - split; [apply date_le_refl|]. now apply date_ltb_false. }
      intros d [<-|[<-|Hd]].
      * eapply date_le_trans; [apply Hstep|apply Hle; now left].
      * eapply date_le_trans; [apply Hstep|apply Hle; now left].
      * apply Hle. now right.
Qed.

(** X12. In a table that reaches 2022, the initial start date (the later of
    the first contract date and 1 January 2022) lies between the first and
    the last contract date, and with the date inputs at their initial values
    the date condition of the filter lets through exactly the dated rows
    from 1 January 2022 on: earlier sales are hidden until the start date is
    moved. *)
Theorem default_dates_show_from_2022 (data : list row) (earliest latest : date)
    (c : criteria) :
  min_date_dataset data = Some earliest ->
  max_date data = Some latest ->
  date_le default_min_date latest ->
  exists first,
    default_start_date data = Some first /\
    date_le default_min_date first /\ date_le earliest first /\
    date_le first latest /\
    forall r d, In r data -> Contract_Date r = Some d ->
      (in_date_range (with_dates c first latest) r <-> date_le default_min_date d).
Proof.
  unfold default_start_date, min_date_dataset, max_date.
  destruct (dropna_values (map Contract_Date data)) as [|d0 ds] eqn:Hd; [discriminate|].
  intros [= <-] [= <-] Hreach. cbn [option_map]. eexists. split; [reflexivity|].
  destruct (date_min_list_spec ds d0) as [_ Hmin].
  destruct (date_max_list_spec ds d0) as [_ Hmax].
  set (mn := date_min_list d0 ds) in *. set (mx := date_max_list d0 ds) in *.
  assert (Hfirst : date_le default_min_date (py_max_date mn default_min_date) /\
                   date_le mn (py_max_date mn default_min_date) /\
                   (date_le default_min_date mn ->
                    py_max_date mn default_min_date = mn)).
  { unfold py_max_date. destruct (date_ltb mn default_min_date) eqn:Hb.
    - apply date_ltb_spec in Hb. repeat split; [apply date_le_refl| |tauto].
      destruct (date_le_total mn default_min_date); tauto.
    - apply date_ltb_false in Hb.
      repeat split; [assumption|apply date_le_refl]. }
  destruct Hfirst as (H1 & H2 & H3). split; [exact H1|]. split; [exact H2|].
  split.
  { unfold py_max_date. destruct (date_ltb mn default_min_date); [exact Hreach|].
    apply date_le_trans with d0; [apply Hmin|apply Hmax]; now left. }
  intros r d Hr Hdate.
  assert (Hin : In d (d0 :: ds)).
  { rewrite <- Hd. apply dropna_values_In, in_map_iff. eauto. }
  unfold in_date_range. cbn. rewrite Hdate. split.
  - intros [Hs _]. now apply date_le_trans with (py_max_date mn default_min_date).
  - intros Hfrom. split; [|now apply Hmax].
    unfold py_max_date in *. destruct (date_ltb mn default_min_date); [exact Hfrom|].
    now apply Hmin.
Qed.

(** ** The option lists of the sidebar *)

Lemma string_leb_iff (a b : string) :
  string_leb a b = true <-> a = b \/ String_as_OT.lt a b.
Proof.
  unfold string_leb. destruct (string_compare_spec a b) as [->|Hlt|Hgt].
  - tauto.
  - tauto.
  - split; [discriminate|]. intros [->|Hlt].
    + now apply irreflexivity in Hgt.
    + exfalso. apply (irreflexivity String_as_OT.lt a). now transitivity b.
Qed.

Lemma string_leb_total (a b : string) :
  string_leb a b = true \/ string_leb b a = true.
Proof.
  rewrite !string_leb_iff. destruct (string_compare_spec a b); auto.
Qed.

Lemma string_leb_trans (a b c : string) :
  string_leb a b = true -> string_leb b c = true -> string_leb a c = true.
Proof.
  rewrite !string_leb_iff. intros [->|Hab] [->|Hbc]; auto.
  right. now transitivity b.
Qed.

Lemma unique_In (x : string) (l : list string) : In x (unique l) <-> In x l.
Proof.
  induction l as [|v l IH]; cbn; [tauto|].
  rewrite filter_In, IH, negb_true_iff, String.eqb_neq.
  destruct (String.eqb_spec x v) as [->|Hne]; intuition.
Qed.

Lemma unique_NoDup (l : list string) : List.NoDup (unique l).
Proof.
  induction l as [|v l IH]; cbn; constructor.
  - rewrite filter_In, String.eqb_refl. cbn. intros [_ H]. discriminate.
  - now apply List.NoDup_filter.
Qed.

Lemma sorted_strictly (l : list string) :
  List.NoDup l -> StronglySorted String_as_OT.lt (sorted l).
Proof.
  intros Hnd. unfold sorted.
  assert (Hs := sort_values_sorted string_leb string_leb_total string_leb_trans l).
  assert (Hnd' : List.NoDup (sort_values string_leb l)).
  { eapply Permutation_NoDup; [|exact Hnd].
    symmetry. apply sort_values_Permutation. }
  induction Hs as [|x s Hs IH Hall]; constructor.
  - apply IH. now inversion Hnd'.
  - inversion Hnd' as [|? ? Hnot _]; subst.
    rewrite List.Forall_forall in *. intros y Hy.
    destruct (proj1 (string_leb_iff x y) (Hall y Hy)) as [->|Hlt]; tauto.
Qed.

Lemma sorted_unique_In (x : string) (l : list string) :
  In x (sorted (unique l)) <-> In x l.
Proof.
  unfold sorted. split; intros H.
  - apply unique_In. eapply Permutation_in; [apply sort_values_Permutation|exact H].
  - eapply Permutation_in; [symmetry; apply sort_values_Permutation|].
    now apply unique_In.
Qed.

(** X13. The project and market segment lists offered in the sidebar start with
    "All"; after it come the values found in the table, each once, in
    ascending order. *)
Theorem option_lists_sorted_distinct (data : list row) :
  (hd_error (projects data) = Some all_sentinel /\
   StronglySorted String_as_OT.lt (tl (projects data)) /\
   forall p, In p (tl (projects data)) <-> exists r, In r data /\ Project r = p) /\
  (hd_error (segments data) = Some all_sentinel /\
   StronglySorted String_as_OT.lt (tl (segments data)) /\
   forall p, In p (tl (segments data)) <->
             exists r, In r data /\ Market_Segment r = p).
Proof.
  unfold projects, segments. cbn [hd_error tl].
  repeat split; try (apply sorted_strictly, unique_NoDup).
  - intros Hin. apply sorted_unique_In, in_map_iff in Hin as (r & H1 & H2). eauto.
  - intros (r & H1 & H2). apply sorted_unique_In, in_map_iff. eauto.
  - intros Hin. apply sorted_unique_In, in_map_iff in Hin as (r & H1 & H2). eauto.
  - intros (r & H1 & H2). apply sorted_unique_In, in_map_iff. eauto.
Qed.

(** ** Group totals add up *)

Lemma sum_skipna_cons (c : option Q) (col : list (option Q)) :
  (sum_skipna (c :: col) == fillna0 c + sum_skipna col)%Q.
Proof.
  unfold sum_skipna, dropna_values. destruct c as [q|]; cbn.
  - reflexivity.
  - now rewrite Qplus_0_l.
Qed.

Lemma count_notna_cons {A : Type} (c : option A) (col : list (option A)) :
  count_notna (c :: col) = (present c + count_notna col)%nat.
Proof. unfold count_notna, dropna_values. now destruct c. Qed.

Lemma Qsum_Permutation (l l' : list Q) :
  Permutation l l' -> (Qsum l == Qsum l')%Q.
Proof.
  induction 1 as [|x l l' _ IH|x y l|l l' l'' _ IH1 _ IH2]; cbn.
  - reflexivity.
  - now rewrite IH.
  - ring.
  - now rewrite IH1.
Qed.

Section GroupTotals.

Context {K R : Type}.
Variable cmp : K -> K -> comparison.
Variable lt : K -> K -> Prop.
Context `{!StrictOrder lt}.
Hypothesis cmp_spec : forall a b, CompareSpec (a = b) (lt a b) (lt b a) (cmp a b).
Variable key : R -> option K.

Abbreviation grouped := (in_some_group cmp key).

Lemma grouped_spec (ks : list K) (r : R) :
  grouped ks r = true <-> exists k, In k ks /\ key r = Some k.
Proof.
  unfold in_some_group. rewrite existsb_exists.
  split; intros (k & Hk & H); exists k; split; try assumption;
    now apply (in_group_spec cmp lt cmp_spec key).
Qed.

Lemma grouped_cons_distinct (k : K) (ks : list K) (r : R) :
  ~ In k ks -> in_group cmp key k r = true -> grouped ks r = false.
Proof.
  intros Hnot Hk. apply not_true_iff_false. intros Hg.
  apply grouped_spec in Hg as (k' & Hk' & Hkey).
  apply (in_group_spec cmp lt cmp_spec key) in Hk.
  rewrite Hk in Hkey. injection Hkey as ->. contradiction.
Qed.

Lemma group_sums_step (col : R -> option Q) (r : R) (rows : list R) (ks : list K) :
  List.NoDup ks ->
  (Qsum (map (fun k => sum_skipna (map col (group_rows cmp key k (r :: rows)))) ks)
   == (if grouped ks r then fillna0 (col r) else 0)
      + Qsum (map (fun k => sum_skipna (map col (group_rows cmp key k rows))) ks))%Q.
Proof.
  induction 1 as [|k ks Hnot Hnd IH]; cbn [map Qsum fold_right].
  - cbn. ring.
  - fold (Qsum (map (fun k0 => sum_skipna (map col (group_rows cmp key k0 (r :: rows)))) ks)).
    fold (Qsum (map (fun k0 => sum_skipna (map col (group_rows cmp key k0 rows))) ks)).
    rewrite IH. unfold group_rows at 1. cbn [List.filter].
    fold (group_rows cmp key k rows).
    change (grouped (k :: ks) r) with (in_group cmp key k r || grouped ks r).
    destruct (in_group cmp key k r) eqn:Hk; cbn [orb].
    + rewrite (grouped_cons_distinct k ks r Hnot Hk).
      cbn [map]. rewrite sum_skipna_cons. ring.
    + ring.
Qed.

Lemma group_sums_total (col : R -> option Q) (ks : list K) (rows : list R) :
  List.NoDup ks ->
  (forall r, In r rows -> exists k, In k ks /\ key r = Some k) ->
  (Qsum (map (fun k => sum_skipna (map col (group_rows cmp key k rows))) ks)
   == sum_skipna (map col rows))%Q.
Proof.
  intros Hnd. induction rows as [|r rows IH]; intros Hall.
  - cbn. clear. induction ks as [|k ks IH]; cbn; [reflexivity|].
    fold (Qsum (map (fun _ : K => sum_skipna []) ks)). rewrite IH.
    unfold sum_skipna. cbn. ring.
  - rewrite (group_sums_step col r rows ks Hnd).
    rewrite (proj2 (grouped_spec ks r)) by (apply Hall; now left).
    rewrite IH by (intros; apply Hall; now right).
    cbn [map]. now rewrite sum_skipna_cons.
Qed.

Lemma group_counts_step {A : Type} (col : R -> option A) (r : R) (rows : list R)
    (ks : list K) :
  List.NoDup ks ->
  list_sum (map (fun k => count_notna (map col (group_rows cmp key k (r :: rows)))) ks)
  = ((if grouped ks r then present (col r) else 0)
     + list_sum (map (fun k => count_notna (map col (group_rows cmp key k rows))) ks))%nat.
Proof.
  induction 1 as [|k ks Hnot Hnd IH]; cbn [map list_sum fold_right].
  - reflexivity.
  - fold (list_sum (map (fun k0 => count_notna (map col (group_rows cmp key k0 (r :: rows)))) ks)).
    fold (list_sum (map (fun k0 => count_notna (map col (group_rows cmp key k0 rows))) ks)).
    rewrite IH. unfold group_rows at 1. cbn [List.filter].
    fold (group_rows cmp key k rows).
    change (grouped (k :: ks) r) with (in_group cmp key k r || grouped ks r).
    destruct (in_group cmp key k r) eqn:Hk; cbn [orb].
    + rewrite (grouped_cons_distinct k ks r Hnot Hk).
      cbn [map]. rewrite count_notna_cons. lia.
    + lia.
Qed.

Lemma group_counts_total {A : Type} (col : R -> option A) (ks : list K)
    (rows : list R) :
  List.NoDup ks ->
  (forall r, In r rows -> exists k, In k ks /\ key r = Some k) ->
  list_sum (map (fun k => count_notna (map col (group_rows cmp key k rows))) ks)
  = count_notna (map col rows).
Proof.
  intros Hnd. induction rows as [|r rows IH]; intros Hall.
  - cbn. clear. induction ks as [|k ks IH]; cbn; [reflexivity|].
    exact IH.
  - rewrite (group_counts_step col r rows ks Hnd).
    rewrite (proj2 (grouped_spec ks r)) by (apply Hall; now left).
    rewrite IH by (intros; apply Hall; now right).
    cbn [map]. now rewrite count_notna_cons.
Qed.

Lemma group_keys_cover (rows : list R) :
  (forall r, In r rows -> key r <> None) ->
  List.NoDup (group_keys cmp key rows) /\
  forall r, In r rows -> exists k, In k (group_keys cmp key rows) /\ key r = Some k.
Proof.
  intros Hkeys. split.
  - apply NoDup_ListNoDup, (strongly_sorted_lt_NoDup lt).
    apply (group_keys_sorted cmp lt cmp_spec).
  - intros r Hr. destruct (key r) as [k|] eqn:Hk; [|now apply Hkeys in Hr].
    exists k. split; [|reflexivity].
    apply (group_keys_In cmp lt cmp_spec). eauto.
Qed.

End GroupTotals.



Lemma mean_times_count (col : list (option Q)) :
  match mean_skipna col with
  | Some avg =>
      (0 < count_notna col)%nat /\
      (avg * inject_Z (Z.of_nat (count_notna col)) == sum_skipna col)%Q
  | None => count_notna col = 0%nat /\ sum_skipna col = 0%Q
  end.
Proof.
  unfold mean_skipna, count_notna, sum_skipna.
  destruct (dropna_values col) as [|v vs]; [split; reflexivity|].
  split; [cbn; lia|]. field.
  unfold Qeq. cbn. lia.
Qed.


(** ** The monthly average price per m² *)


Lemma group_keys_same_keys {K R : Type} (cmp : K -> K -> comparison)
    (key1 key2 : R -> option K) (rows : list R) :
  (forall r, In r rows -> key1 r = key2 r) ->
  group_keys cmp key1 rows = group_keys cmp key2 rows.
Proof.
  intros H. unfold group_keys. f_equal. f_equal. now apply map_ext_in.
Qed.

(** A subset of a loaded table carries in [Year-Month] the text of each
    row's own date. *)
Lemma filtered_subset_year_month float_of_string numeric_of_string other_datetime
    (csv : list raw_row) (data : list row) (c : criteria) :
  load_data float_of_string numeric_of_string other_datetime csv = Return data ->
  year_month_of_date (recoerce_m2 (filtered_data data c)).
Proof.
  intros Hload r Hr. unfold recoerce_m2 in Hr.
  apply in_map_iff in Hr as (r0 & <- & Hr0). cbn.
  rewrite filtered_data_rowwise in Hr0. apply filter_In in Hr0 as [Hr0 _].
  apply list_elem_of_In, list_elem_of_lookup in Hr0 as [i Hi].
  assert (Hlt : (i < length csv)%nat).
  { rewrite <- (load_data_length _ _ _ _ _ Hload). now apply lookup_lt_Some in Hi. }
  destruct (lookup_lt_is_Some_2 csv i Hlt) as [raw Hraw].
  destruct (load_data_row _ _ _ _ _ _ _ Hload Hraw) as (d & p & _ & _ & Hrow).
  rewrite Hrow in Hi. injection Hi as <-. reflexivity.
Qed.

(** X18. When [Year-Month] is the text of each row's date, as in a subset of a
    loaded table, the chart of monthly average prices and the timeline have
    the same months in the same order, although the one groups by the date
    and the other by the [Year-Month] column. *)
Theorem price_chart_months_match_timeline (fd : list row) :
  year_month_of_date fd ->
  map mp_Month (monthly_price_m2 fd) = map ms_Year_Month (monthly_sales fd).
Proof.
  intros Hym. rewrite monthly_sales_groups.
  unfold monthly_price_m2, groupby_agg. rewrite !map_map. cbn. rewrite !map_id.
  symmetry. now apply group_keys_same_keys.
Qed.

(** ** The statistics of tab 2, further *)

Section ArgBestFirst.

Variable better : Q -> Q -> bool.
Variable dominates beats : Q -> Q -> Prop.
Hypothesis dominates_refl : forall a, dominates a a.
Hypothesis beats_dominates : forall a b, beats a b -> dominates a b.
Hypothesis dominates_beats :
  forall a b c, dominates a b -> beats b c -> beats a c.
Hypothesis beats_then_dominates :
  forall a b c, beats a b -> dominates b c -> beats a c.
Hypothesis better_true : forall v b, better v b = true -> beats v b.
Hypothesis better_false : forall v b, better v b = false -> dominates b v.

(** [argbest] stops at the first entry that none beats: the entries before
    it are beaten by it, those after it do not beat it. *)
Lemma argbest_first (col : list (nat * Q)) : forall best,
  exists pre post v,
    best :: col = pre ++ (argbest better best col, v) :: post /\
    (forall y, In y pre -> beats v (snd y)) /\
    (forall y, In y post -> dominates v (snd y)).
Proof.
  induction col as [|x col IH]; intros best; cbn [argbest].
  - exists [], [], (snd best). split; [now destruct best|]. split; intros y [].
  - destruct (better (snd x) (snd best)) eqn:Hb.
    + destruct (IH x) as (pre & post & v & Heq & Hpre & Hpost).
      exists (best :: pre), post, v. split; [cbn; now rewrite Heq|].
      split; [|exact Hpost].
      assert (Hx : dominates v (snd x)).
      { destruct pre as [|p pre]; cbn in Heq; injection Heq as Hh Ht.
        - rewrite Hh. cbn. apply dominates_refl.
        - apply beats_dominates, Hpre. left. exact (eq_sym Hh). }
      intros y [<-|Hy]; [|now apply Hpre].
      apply dominates_beats with (snd x); [exact Hx|now apply better_true].
    + destruct (IH best) as (pre & post & v & Heq & Hpre & Hpost).
      destruct pre as [|p pre]; cbn in Heq; injection Heq as Hh Ht.
      * exists [], (x :: col), v. split; [cbn; f_equal; exact Hh|].
        split; [intros y []|].
        assert (Hv : v = snd best) by (exact (eq_sym (f_equal snd Hh))).
        intros y [<-|Hy].
        -- rewrite Hv. now apply better_false.
        -- apply Hpost. rewrite <- Ht. exact Hy.
      * exists (best :: x :: pre), post, v. split; [cbn; do 2 f_equal; exact Ht|].
        split; [|exact Hpost].
        assert (Hbest : beats v (snd best)) by (apply Hpre; left; exact (eq_sym Hh)).
        intros y [<-|[<-|Hy]].
        -- exact Hbest.
        -- apply beats_then_dominates with (snd best); [exact Hbest|].
           now apply better_false.
        -- apply Hpre. now right.
Qed.

End ArgBestFirst.

Lemma labelled_m2_dropna (fd : list row) :
  labelled_m2 (dropna_m2 fd) = labelled_m2 fd.
Proof.
  unfold labelled_m2, dropna_m2. induction fd as [|r fd IH]; cbn; [reflexivity|].
  destruct (m2 r) as [v|] eqn:Hv; cbn; rewrite ?Hv, IH; reflexivity.
Qed.

Lemma labelled_m2_nil (fd : list row) :
  labelled_m2 fd = [] <-> dropna_m2 fd = [].
Proof.
  unfold labelled_m2, dropna_m2. induction fd as [|r fd IH]; cbn; [tauto|].
  destruct (m2 r); cbn; [split; discriminate|exact IH].
Qed.

Lemma labelled_m2_split (fd : list row) : forall pre l v post,
  labelled_m2 fd = pre ++ (l, v) :: post ->
  exists before r after,
    fd = before ++ r :: after /\ labelled_m2 before = pre /\
    index r = l /\ m2 r = Some v /\ labelled_m2 after = post.
Proof.
  unfold labelled_m2.
  induction fd as [|r fd IH]; intros pre l v post H; cbn in H.
  - destruct pre; discriminate.
  - destruct (m2 r) as [w|] eqn:Hw; cbn in H.
    + destruct pre as [|p pre]; cbn in H.
      * injection H as Hl Hv Ht. exists [], r, fd. cbn.
        repeat split; congruence.
      * injection H as Hh Ht.
        destruct (IH _ _ _ _ Ht) as (before & r' & after & -> & Hb & Hi & Hm & Ha).
        exists (r :: before), r', after. cbn. rewrite Hw. cbn.
        repeat split; congruence.
    + destruct (IH _ _ _ _ H) as (before & r' & after & -> & Hb & Hi & Hm & Ha).
      exists (r :: before), r', after. cbn. rewrite Hw. cbn.
      repeat split; congruence.
Qed.

(** What tab 2 shows once the rows bearing the labels that [idxmax] and
    [idxmin] return are known. *)
Lemma tab2_statistics_rows (fd : list row) (x : nat * Q) (rest : list (nat * Q))
    (rmax rmin : row) :
  NoDup (map index fd) ->
  labelled_m2 fd = x :: rest ->
  In rmax fd -> m2 rmax <> None ->
  index rmax = argbest (fun v best => Qltb best v) x rest ->
  In rmin fd -> m2 rmin <> None ->
  index rmin = argbest (fun v best => Qltb v best) x rest ->
  tab2_statistics fd =
  Shown {| highest_transaction := rmax;
           lowest_transaction := rmin;
           average_price_per_m2 := mean_skipna (map m2 (dropna_m2 fd)) |}.
Proof.
  intros Hnd Hlab Hmax Hvmax Himax Hmin Hvmin Himin.
  assert (Hvalid : dropna_m2 fd <> []).
  { intros Hnil. apply labelled_m2_nil in Hnil. congruence. }
  assert (Hfd : fd <> []) by (intros ->; now apply Hvalid).
  assert (He : empty fd = false) by (destruct fd; [congruence|reflexivity]).
  assert (Hev : empty (dropna_m2 fd) = false)
    by (destruct (dropna_m2 fd); [congruence|reflexivity]).
  unfold tab2_statistics. rewrite He. cbn [negb]. rewrite Hev. cbn [negb].
  unfold idxmax, idxmin. rewrite labelled_m2_dropna, Hlab. cbn [rbind].
  assert (Hvnd : NoDup (map index (dropna_m2 fd))) by now apply filter_index_NoDup.
  assert (Hin : forall r, In r fd -> m2 r <> None -> In r (dropna_m2 fd)).
  { intros r Hr Hv. apply dropna_m2_In. split; [assumption|].
    destruct (m2 r); [eauto|congruence]. }
  rewrite <- Himax, (loc_unique rmax _ Hvnd (Hin _ Hmax Hvmax)). cbn [rbind].
  rewrite <- Himin, (loc_unique rmin _ Hvnd (Hin _ Hmin Hvmin)). reflexivity.
Qed.

Lemma argmax_first (x : nat * Q) (rest : list (nat * Q)) :
  exists pre post v,
    x :: rest = pre ++ (argbest (fun v best => Qltb best v) x rest, v) :: post /\
    (forall y, In y pre -> (snd y < v)%Q) /\
    (forall y, In y post -> (snd y <= v)%Q).
Proof.
  apply (argbest_first (fun v best => Qltb best v)
           (fun a b => (b <= a)%Q) (fun a b => (b < a)%Q)).
  - apply Qle_refl.
  - intros a b. apply Qlt_le_weak.
  - intros a b c Hab Hbc. now apply Qlt_le_trans with b.
  - intros a b c Hab Hbc. now apply Qle_lt_trans with b.
  - intros v b. apply Qltb_true.
  - intros v b. apply Qltb_false.
Qed.

Lemma argmin_first (x : nat * Q) (rest : list (nat * Q)) :
  exists pre post v,
    x :: rest = pre ++ (argbest (fun v best => Qltb v best) x rest, v) :: post /\
    (forall y, In y pre -> (v < snd y)%Q) /\
    (forall y, In y post -> (v <= snd y)%Q).
Proof.
  apply (argbest_first (fun v best => Qltb v best)
           (fun a b => (a <= b)%Q) (fun a b => (a < b)%Q)).
  - apply Qle_refl.
  - intros a b. apply Qlt_le_weak.
  - intros a b c Hab Hbc. now apply Qle_lt_trans with b.
  - intros a b c Hab Hbc. now apply Qlt_le_trans with b.
  - intros v b. apply Qltb_true.
  - intros v b. apply Qltb_false.
Qed.

(** The rows [idxmax] and [idxmin] point at, with what precedes and what
    follows them. *)
Lemma extreme_rows (fd : list row) :
  dropna_m2 fd <> [] ->
  exists x rest, labelled_m2 fd = x :: rest /\
  (exists before rmax after vmax,
      fd = before ++ rmax :: after /\ m2 rmax = Some vmax /\
      index rmax = argbest (fun v best => Qltb best v) x rest /\
      (forall r v, In r before -> m2 r = Some v -> (v < vmax)%Q) /\
      (forall r v, In r after -> m2 r = Some v -> (v <= vmax)%Q)) /\
  (exists before rmin after vmin,
      fd = before ++ rmin :: after /\ m2 rmin = Some vmin /\
      index rmin = argbest (fun v best => Qltb v best) x rest /\
      (forall r v, In r before -> m2 r = Some v -> (vmin < v)%Q) /\
      (forall r v, In r after -> m2 r = Some v -> (vmin <= v)%Q)).
Proof.
  intros Hvalid.
  destruct (labelled_m2 fd) as [|x rest] eqn:Hlab;
    [now apply labelled_m2_nil in Hlab|].
  exists x, rest. split; [reflexivity|]. split.
  - destruct (argmax_first x rest) as (pre & post & v & Heq & Hpre & Hpost).
    rewrite <- Hlab in Heq.
    destruct (labelled_m2_split _ _ _ _ _ Heq)
      as (before & r & after & Hfd & Hb & Hi & Hm & Ha).
    exists before, r, after, v. repeat split; try assumption.
    + intros r' v' Hr' Hv'. apply (Hpre (index r', v')).
      rewrite <- Hb. apply labelled_m2_In. eauto.
    + intros r' v' Hr' Hv'. apply (Hpost (index r', v')).
      rewrite <- Ha. apply labelled_m2_In. eauto.
  - destruct (argmin_first x rest) as (pre & post & v & Heq & Hpre & Hpost).
    rewrite <- Hlab in Heq.
    destruct (labelled_m2_split _ _ _ _ _ Heq)
      as (before & r & after & Hfd & Hb & Hi & Hm & Ha).
    exists before, r, after, v. repeat split; try assumption.
    + intros r' v' Hr' Hv'. apply (Hpre (index r', v')).
      rewrite <- Hb. apply labelled_m2_In. eauto.
    + intros r' v' Hr' Hv'. apply (Hpost (index r', v')).
      rewrite <- Ha. apply labelled_m2_In. eauto.
Qed.

(** X19. With distinct index labels, tab 2 shows statistics exactly when some
    row of the subset has an [m²] value; otherwise it shows one of its two
    "no data" notices, and never the notice of the [except] branch. *)
Theorem statistics_shown_iff_some_value (fd : list row) :
  NoDup (map index fd) ->
  (is_shown (tab2_statistics fd) = true <-> exists r, In r fd /\ m2 r <> None) /\
  (fd = [] -> tab2_statistics fd = NoData notice_no_data_short) /\
  (fd <> [] -> (forall r, In r fd -> m2 r = None) ->
   tab2_statistics fd = NoData notice_no_valid_m2) /\
  tab2_statistics fd <> NoData notice_unable.
Proof.
  intros Hnd.
  assert (Hnone : dropna_m2 fd = [] <-> forall r, In r fd -> m2 r = None).
  { split.
    - intros Hnil r Hr. destruct (m2 r) as [v|] eqn:Hv; [|reflexivity].
      assert (Hin : In r (dropna_m2 fd)) by (apply dropna_m2_In; eauto).
      rewrite Hnil in Hin. destruct Hin.
    - intros Hall. destruct (dropna_m2 fd) as [|w ws] eqn:Hd; [reflexivity|].
      assert (Hw : In w (dropna_m2 fd)) by (rewrite Hd; now left).
      apply dropna_m2_In in Hw as [Hw [v Hv]]. rewrite (Hall w Hw) in Hv.
      discriminate. }
  assert (Hshown : dropna_m2 fd <> [] -> exists stats, tab2_statistics fd = Shown stats).
  { intros Hvalid.
    destruct (extreme_rows fd Hvalid)
      as (x & rest & Hlab & (b1 & rmax & a1 & vmax & Hf1 & Hm1 & Hi1 & _ & _)
          & (b2 & rmin & a2 & vmin & Hf2 & Hm2 & Hi2 & _ & _)).
    eexists. apply (tab2_statistics_rows fd x rest rmax rmin Hnd Hlab);
      try assumption; try congruence.
    - rewrite Hf1. apply in_elt.
    - rewrite Hf2. apply in_elt. }
  assert (Hempty : dropna_m2 fd = [] ->
            tab2_statistics fd =
            NoData (if empty fd then notice_no_data_short else notice_no_valid_m2)).
  { intros Hnil. unfold tab2_statistics. rewrite Hnil.
    destruct fd; reflexivity. }
  split; [|split; [|split]].
  - split.
    + intros Hs. destruct (dropna_m2 fd) as [|w ws] eqn:Hd.
      * rewrite (Hempty eq_refl) in Hs. discriminate.
      * assert (Hw : In w (dropna_m2 fd)) by (rewrite Hd; now left).
        apply dropna_m2_In in Hw as [Hw [v Hv]]. exists w. split; congruence.
    + intros (r & Hr & Hv). destruct Hshown as [stats ->]; [|reflexivity].
      intros Hnil. apply Hv. now apply (proj1 Hnone Hnil).
  - intros ->. reflexivity.
  - intros Hne Hall. rewrite (Hempty (proj2 Hnone Hall)).
    destruct fd; [congruence|reflexivity].
  - destruct (dropna_m2 fd) as [|w ws] eqn:Hd.
    + rewrite (Hempty eq_refl). destruct (empty fd); discriminate.
    + destruct Hshown as [stats ->]; discriminate.
Qed.

(** X20. With distinct index labels, the highest transaction shown is the
    first row in table order that holds the largest [m²] value of the
    subset: every row before it that has a value is strictly below it, and
    no row after it is above it.  Likewise the lowest transaction is the
    first row that holds the smallest value. *)
Theorem extremes_are_first_occurrences (fd : list row) (stats : price_statistics) :
  NoDup (map index fd) ->
  tab2_statistics fd = Shown stats ->
  (exists before after vmax,
      fd = before ++ highest_transaction stats :: after /\
      m2 (highest_transaction stats) = Some vmax /\
      (forall r v, In r before -> m2 r = Some v -> (v < vmax)%Q) /\
      (forall r v, In r after -> m2 r = Some v -> (v <= vmax)%Q)) /\
  (exists before after vmin,
      fd = before ++ lowest_transaction stats :: after /\
      m2 (lowest_transaction stats) = Some vmin /\
      (forall r v, In r before -> m2 r = Some v -> (vmin < v)%Q) /\
      (forall r v, In r after -> m2 r = Some v -> (vmin <= v)%Q)).
Proof.
  intros Hnd Hshown.
  assert (Hvalid : dropna_m2 fd <> []).
  { intros Hnil. unfold tab2_statistics in Hshown. rewrite Hnil in Hshown.
    destruct fd; discriminate. }
  destruct (extreme_rows fd Hvalid)
    as (x & rest & Hlab & (b1 & rmax & a1 & vmax & Hf1 & Hm1 & Hi1 & Hb1 & Ha1)
        & (b2 & rmin & a2 & vmin & Hf2 & Hm2 & Hi2 & Hb2 & Ha2)).
  assert (Hstats := tab2_statistics_rows fd x rest rmax rmin Hnd Hlab).
  rewrite Hstats in Hshown; try assumption; try congruence.
  - injection Hshown as <-. cbn. split.
    + exists b1, a1, vmax. repeat split; assumption.
    + exists b2, a2, vmin. repeat split; assumption.
  - rewrite Hf1. apply in_elt.
  - rewrite Hf2. apply in_elt.
Qed.

(** ** Tab 3 *)

Lemma insert_key_subset {K : Type} (cmp : K -> K -> comparison) (k x : K)
    (ks : list K) :
  In x (insert_key cmp k ks) -> x = k \/ In x ks.
Proof.
  induction ks as [|k' ks IH]; cbn.
  - intuition.
  - destruct (cmp k k'); cbn; intuition.
Qed.

Lemma group_keys_from_rows {K R : Type} (cmp : K -> K -> comparison)
    (key : R -> option K) (k : K) (rows : list R) :
  In k (group_keys cmp key rows) -> exists r, In r rows /\ key r = Some k.
Proof.
  unfold group_keys, dropna_values.
  induction rows as [|r rows IH]; cbn; [tauto|].
  destruct (key r) as [k'|] eqn:Hk; cbn.
  - intros Hin. apply insert_key_subset in Hin as [->|Hin]; [eauto|].
    destruct (IH Hin) as (r' & Hr' & Hk'). eauto.
  - intros Hin. destruct (IH Hin) as (r' & Hr' & Hk'). eauto.
Qed.

(** X21. The location table is shown exactly when some row of the subset has
    both coordinates; a subset with rows but no coordinates gets the
    "no location data" notice.  Every row of the table shown bears the
    project and the coordinates of a row of the subset that has both. *)
Theorem location_table_needs_coordinates (np_sqrt : Q -> option Q) (fd : list row) :
  (is_shown (tab3 np_sqrt fd) = true <->
   exists r, In r fd /\ Latitude r <> None /\ Longitude r <> None) /\
  (fd <> [] ->
   (forall r, In r fd -> Latitude r = None \/ Longitude r = None) ->
   tab3 np_sqrt fd = NoData notice_no_location) /\
  (forall table o, tab3 np_sqrt fd = Shown table -> In o table ->
     exists r, In r fd /\ Project r = lg_Project (pl_group o) /\
               Latitude r = Some (lg_Latitude (pl_group o)) /\
               Longitude r = Some (lg_Longitude (pl_group o))).
Proof.
  assert (Hin : forall r, In r (dropna_lat_long fd) <->
                          In r fd /\ Latitude r <> None /\ Longitude r <> None).
  { intros r. unfold dropna_lat_long. rewrite filter_In.
    destruct (Latitude r), (Longitude r); intuition congruence. }
  split; [|split].
  - unfold tab3. destruct fd as [|r0 fd0] eqn:Efd.
    + cbn. split; [discriminate|]. intros (r & [] & _).
    + rewrite <- Efd in *. replace (empty fd) with false by now rewrite Efd.
      destruct (dropna_lat_long fd) as [|w ws] eqn:Hd; cbn.
      * split; [discriminate|]. intros (r & Hr).
        apply Hin in Hr. destruct Hr.
      * split; [|reflexivity]. intros _. exists w. apply Hin. now left.
  - intros Hne Hnone. unfold tab3.
    replace (empty fd) with false by (destruct fd; [congruence|reflexivity]).
    destruct (dropna_lat_long fd) as [|w ws] eqn:Hd; [reflexivity|].
    assert (Hw : In w (w :: ws)) by now left.
    apply Hin in Hw as (Hw & Hlat & Hlon). destruct (Hnone w Hw); congruence.
  - intros table o Htab Ho. unfold tab3 in Htab.
    destruct (empty fd); [discriminate|].
    destruct (negb (empty (dropna_lat_long fd))); [|discriminate].
    injection Htab as <-. unfold project_locations in Ho.
    apply in_map_iff in Ho as (g & <- & Hg).
    unfold location_groups, groupby_agg in Hg.
    apply in_map_iff in Hg as (k & <- & Hk).
    apply group_keys_from_rows in Hk as (r & Hr & Hkey).
    apply Hin in Hr as (Hr & _ & _). exists r. split; [assumption|].
    unfold location_key in Hkey.
    destruct (Latitude r) as [lat|], (Longitude r) as [lon|]; try discriminate.
    injection Hkey as <-. cbn. repeat split.
Qed.

(** ** The script on an empty subset *)

(** X22. When the filter keeps no row, the tabs build nothing: after the filter
    and the re-coercion the script leaves the store as it is, so the only
    new object of the run is the empty filtered table. *)
Theorem empty_subset_builds_no_table (numeric_of_string : string -> option Q)
    (np_sqrt : Q -> option Q) (c : criteria) (st : store) (l : nat)
    (data : list row) :
  well_bound st ->
  sole_name "data" l (DataFrame data) st ->
  filtered_data data c = [] ->
  run_script numeric_of_string np_sqrt c st = stmt_recoerce (stmt_filter c st) /\
  length (heap (run_script numeric_of_string np_sqrt c st)) = S (length (heap st)) /\
  frame_of "filtered_data" (run_script numeric_of_string np_sqrt c st) = [].
Proof.
  intros Hwb Hdata Hnone.
  assert (Hf : sole_name "filtered_data" (length (heap st))
                 (DataFrame (filtered_data data c)) (stmt_filter c st)).
  { unfold stmt_filter. rewrite (frame_of_sole_name _ _ _ _ Hdata).
    now apply assign_new_binds. }
  assert (Hf2 : sole_name "filtered_data" (length (heap st))
                  (DataFrame (recoerce_m2 (filtered_data data c)))
                  (stmt_recoerce (stmt_filter c st))).
  { unfold stmt_recoerce.
    apply (setitem_writes _ _ _ (on_frame recoerce_m2) _ Hf). }
  rewrite Hnone in Hf2. cbn in Hf2.
  pose proof (frame_of_sole_name _ _ _ _ Hf2) as Hfd.
  assert (Hrun : run_script numeric_of_string np_sqrt c st
                 = stmt_recoerce (stmt_filter c st)).
  { unfold run_script.
    assert (H1 : stmt_tab1 (stmt_recoerce (stmt_filter c st))
                 = stmt_recoerce (stmt_filter c st))
      by (unfold stmt_tab1; now rewrite Hfd).
    rewrite H1.
    assert (H2 : stmt_tab2_statistics (stmt_recoerce (stmt_filter c st))
                 = stmt_recoerce (stmt_filter c st))
      by (unfold stmt_tab2_statistics; now rewrite Hfd).
    rewrite H2.
    assert (H3 : stmt_tab2_projects numeric_of_string
                   (stmt_recoerce (stmt_filter c st))
                 = stmt_recoerce (stmt_filter c st))
      by (unfold stmt_tab2_projects; now rewrite Hfd).
    rewrite H3. unfold stmt_tab3. now rewrite Hfd. }
  rewrite Hrun. split; [reflexivity|]. split; [|exact Hfd].
  unfold stmt_recoerce, setitem.
  destruct (env (stmt_filter c st) !! "filtered_data"); cbn;
    rewrite ?length_alter, length_app; cbn; lia.
Qed.

(** * The further properties on the sample data *)

Lemma numeric_column_aborts_load_sample :
  raises (sample_load sample_csv_numeric).
Proof.
  apply (numeric_column_aborts_load decimal_float decimal_of_string
           strict_datetime sample_csv_numeric).
  - discriminate.
  - left. intros raw [<-|[<-|[]]]; reflexivity.
Defined.

Lemma loaded_rows_follow_file_sample :
  length sample_table = length sample_csv /\
  forall i raw, sample_csv !! i = Some raw ->
    exists r,
      sample_table !! i = Some r /\ index r = i /\
      Unit_ID r = raw_Unit_ID raw /\ Project r = raw_Project raw /\
      Bedrooms r = raw_Bedrooms raw /\
      Market_Segment r = raw_Market_Segment raw /\
      Latitude r = raw_Latitude raw /\ Longitude r = raw_Longitude raw /\
      Covered_Area r = fillna0 (raw_Covered_Area raw) /\
      Covered_Veranda r = fillna0 (raw_Covered_Veranda raw) /\
      Total_Covered r = fillna0 (raw_Total_Covered raw) /\
      Year_Month r = option_map strftime_Ym (Contract_Date r).
Proof.
  apply (loaded_rows_follow_file decimal_float decimal_of_string strict_datetime
           sample_csv sample_table).
  reflexivity.
Defined.

Lemma year_month_text_order_sample :
  String_as_OT.compare (strftime_Ym (mkdate 2023 12 31))
    (strftime_Ym (mkdate 2024 1 1)) =
  year_month_compare (mkdate 2023 12 31) (mkdate 2024 1 1).
Proof.
  apply (year_month_text_order (mkdate 2023 12 31) (mkdate 2024 1 1));
    vm_compute; lia.
Defined.

Lemma filtered_rows_have_date_and_amount_sample :
  let r := sale 0 (Some "U1") "A" (mkdate 2024 1 5) (Some (inject_Z 100)) None 0%Q in
  (exists d, Contract_Date r = Some d) /\
  (exists q, Contract_Amount r = Some q) /\
  (selected_bedrooms sample_criteria <> CatText all_sentinel -> Bedrooms r <> None).
Proof.
  apply (filtered_rows_have_date_and_amount sample_projects sample_criteria).
  left. reflexivity.
Defined.

Lemma choosing_project_narrows_all_sample :
  filtered_data sample_projects sample_criteria =
  List.filter (fun r => String.eqb (Project r) (selected_project sample_criteria))
    (filtered_data sample_projects (with_project sample_criteria all_sentinel)).
Proof.
  apply (choosing_project_narrows_all sample_projects sample_criteria).
  discriminate.
Defined.

Lemma whole_maximum_keeps_every_amount_sample :
  in_price_range (with_price_range sample_criteria (100, 500))
    (sale 1 (Some "U2") "A" (mkdate 2024 1 20) (Some (inject_Z 500)) None 0%Q).
Proof.
  apply (whole_maximum_keeps_every_amount sample_projects (inject_Z 500)
           100 500 sample_criteria).
  - reflexivity.
  - reflexivity.
  - reflexivity.
  - intros r q [<-|[<-|[<-|[]]]] [= <-]; unfold Qle; cbn; lia.
  - right. left. reflexivity.
  - discriminate.
Defined.

Lemma default_dates_show_from_2022_sample :
  exists first,
    default_start_date sample_subset = Some first /\
    date_le default_min_date first /\ date_le (mkdate 2024 1 5) first /\
    date_le first (mkdate 2024 2 3) /\
    forall r d, In r sample_subset -> Contract_Date r = Some d ->
      (in_date_range (with_dates sample_criteria first (mkdate 2024 2 3)) r
       <-> date_le default_min_date d).
Proof.
  apply (default_dates_show_from_2022 sample_subset (mkdate 2024 1 5)
           (mkdate 2024 2 3) sample_criteria).
  - reflexivity.
  - reflexivity.
  - unfold date_le, default_min_date. cbn. lia.
Defined.



Lemma sample_subset_year_month : year_month_of_date sample_subset.
Proof. intros r [<-|[<-|[<-|[]]]]; reflexivity. Defined.

Lemma price_chart_months_match_timeline_sample :
  map mp_Month (monthly_price_m2 sample_subset) =
  map ms_Year_Month (monthly_sales sample_subset).
Proof.
  apply (price_chart_months_match_timeline sample_subset).
  exact sample_subset_year_month.
Defined.

Lemma statistics_shown_iff_some_value_sample :
  (is_shown (tab2_statistics sample_subset) = true <->
   exists r, In r sample_subset /\ m2 r <> None) /\
  (sample_subset = [] -> tab2_statistics sample_subset = NoData notice_no_data_short) /\
  (sample_subset <> [] -> (forall r, In r sample_subset -> m2 r = None) ->
   tab2_statistics sample_subset = NoData notice_no_valid_m2) /\
  tab2_statistics sample_subset <> NoData notice_unable.
Proof.
  apply (statistics_shown_iff_some_value sample_subset).
  exact sample_subset_index_NoDup.
Defined.

Lemma extremes_are_first_occurrences_sample :
  (exists before after vmax,
      sample_subset = before ++ highest_transaction sample_statistics :: after /\
      m2 (highest_transaction sample_statistics) = Some vmax /\
      (forall r v, In r before -> m2 r = Some v -> (v < vmax)%Q) /\
      (forall r v, In r after -> m2 r = Some v -> (v <= vmax)%Q)) /\
  (exists before after vmin,
      sample_subset = before ++ lowest_transaction sample_statistics :: after /\
      m2 (lowest_transaction sample_statistics) = Some vmin /\
      (forall r v, In r before -> m2 r = Some v -> (vmin < v)%Q) /\
      (forall r v, In r after -> m2 r = Some v -> (vmin <= v)%Q)).
Proof.
  apply (extremes_are_first_occurrences sample_subset sample_statistics).
  - exact sample_subset_index_NoDup.
  - reflexivity.
Defined.

Lemma empty_subset_builds_no_table_sample :
  run_script decimal_of_string whole_sqrt sample_criteria_none sample_store
  = stmt_recoerce (stmt_filter sample_criteria_none sample_store) /\
  length (heap (run_script decimal_of_string whole_sqrt sample_criteria_none
                  sample_store)) = S (length (heap sample_store)) /\
  frame_of "filtered_data"
    (run_script decimal_of_string whole_sqrt sample_criteria_none sample_store) = [].
Proof.
  apply (empty_subset_builds_no_table decimal_of_string whole_sqrt
           sample_criteria_none sample_store 0 sample_subset).
  - exact sample_store_well_bound.
  - exact sample_store_data.
  - reflexivity.
Defined.
